(** * Headroom.js: the scroll state machine of [src/Headroom.js]

    A shallow embedding of the widget's decision logic ([update] and the six
    class transitions) and the properties of it that the specification
    states.

    - JavaScript numbers are modelled by [num]: exact integers for the finite
      values, the two infinities and NaN, with the IEEE rules for arithmetic
      and comparison on the non-finite ones.  Rounding and overflow of finite
      doubles are outside the model.
    - [elem.classList] is a finite set of class names.
    - The six callbacks are opaque user code.  The model records every
      invocation in the field [calls] (oldest first) and takes the callback
      body to leave the widget alone.
    - The class names are options.  Properties that speak of a class and its
      opposite are stated for options whose axis class names differ from one
      another ([pairs_distinct], [classes_distinct]), as they do in
      [Headroom.options].
    - [init], [attachEvent] and [destroy] wire the widget to the scroll
      source, the debouncer and the timer, which are outside this file: each
      returns the widget together with the calls it makes on them
      ([effect]).  The delay of the timer and the frame in which the
      debouncer runs [update] are not modelled. *)

From Stdlib Require Import ZArith Bool List Lia.
From stdpp Require Import gmap strings list sorting.

Local Open Scope Z_scope.
Set Warnings "-clear-no-such-hyp".

(** ** Numbers *)

Inductive num : Type :=
| Finite (z : Z)
| PosInf
| NegInf
| NaN.

#[global] Instance num_eq_dec : EqDecision num.
Proof. solve_decision. Defined.

Definition num_add (a b : num) : num :=
  match a, b with
  | NaN, _ | _, NaN => NaN
  | Finite x, Finite y => Finite (x + y)
  | PosInf, NegInf | NegInf, PosInf => NaN
  | PosInf, _ | _, PosInf => PosInf
  | NegInf, _ | _, NegInf => NegInf
  end.

Definition num_neg (a : num) : num :=
  match a with
  | Finite x => Finite (- x)
  | PosInf => NegInf
  | NegInf => PosInf
  | NaN => NaN
  end.

Definition num_sub (a b : num) : num := num_add a (num_neg b).

(** [Math.abs] *)
Definition num_abs (a : num) : num :=
  match a with
  | Finite x => Finite (Z.abs x)
  | PosInf | NegInf => PosInf
  | NaN => NaN
  end.

(** [a < b]: false as soon as one side is NaN. *)
Definition num_lt (a b : num) : bool :=
  match a, b with
  | Finite x, Finite y => x <? y
  | NegInf, Finite _ | NegInf, PosInf | Finite _, PosInf => true
  | _, _ => false
  end.

(** [a == b] on numbers: NaN is equal to nothing. *)
Definition num_eq (a b : num) : bool :=
  match a, b with
  | Finite x, Finite y => x =? y
  | PosInf, PosInf | NegInf, NegInf => true
  | _, _ => false
  end.

Definition num_le (a b : num) : bool := num_lt a b || num_eq a b.
Definition num_gt (a b : num) : bool := num_lt b a.
Definition num_ge (a b : num) : bool := num_le b a.

Declare Scope num_scope.
Delimit Scope num_scope with num.
Bind Scope num_scope with num.
Infix "+" := num_add : num_scope.
Infix "-" := num_sub : num_scope.
Infix "<?" := num_lt : num_scope.
Infix "<=?" := num_le : num_scope.
Infix ">?" := num_gt : num_scope.
Infix ">=?" := num_ge : num_scope.
Infix "=?" := num_eq : num_scope.

Coercion Finite : Z >-> num.

(** ** Options and the widget *)

(** [tolerance] after normalisation: one threshold per scroll direction. *)
Record Tolerance : Type := { down : num; up : num }.

(** The [tolerance] option as the caller gives it: a number or an object.
    A field missing from the object reads as [undefined], which every
    comparison treats like NaN. *)
Inductive ToleranceOption : Type :=
| TolNumber (t : num)
| TolObject (t : Tolerance).

Inductive Direction : Type := Down | Up.

(** [this.tolerance[direction]] *)
Definition tolerance_at (t : Tolerance) (d : Direction) : num :=
  match d with
  | Down => down t
  | Up => up t
  end.

(** [options.classes]: the class names put on the element. *)
Record Classes : Type := {
  cls_frozen : string;
  cls_pinned : string;
  cls_unpinned : string;
  cls_top : string;
  cls_notTop : string;
  cls_bottom : string;
  cls_notBottom : string;
  cls_initial : string
}.

Inductive callback : Type :=
| OnPin | OnUnpin | OnTop | OnNotTop | OnBottom | OnNotBottom.

#[global] Instance callback_eq_dec : EqDecision callback.
Proof. solve_decision. Defined.

(** The value of [options] after line 44, [extend(options, Headroom.options)]
    (the helper [extend] is in [utils], outside this file: every field is
    present, the caller's value or the default).  A callback option is [true]
    when the caller registered a function, [false] when it is undefined. *)
Record Options : Type := {
  opt_tolerance : ToleranceOption;
  opt_offset : num;
  opt_classes : Classes;
  opt_onPin : bool;
  opt_onUnpin : bool;
  opt_onTop : bool;
  opt_onNotTop : bool;
  opt_onBottom : bool;
  opt_onNotBottom : bool
}.

(** The instance ([this]).  [elem] is the element's class list; [scroller] and
    [scrollSource] are the external scroll source, whose answers reach
    [update] as a [ScrollSource] reading; [calls] is the trace of callback
    invocations. *)
Record widget : Type := {
  lastKnownScrollY : num;
  elem : gset string;
  tolerance : Tolerance;
  classes : Classes;
  offset : num;
  initialised : bool;
  onPin : bool;
  onUnpin : bool;
  onTop : bool;
  onNotTop : bool;
  onBottom : bool;
  onNotBottom : bool;
  frozen : bool;
  calls : list callback
}.

(** What the scroll source answers during one tick: [scrollY()], [height()]
    and [scrollHeight()]. *)
Record ScrollSource : Type := {
  scrollY : num;
  height : num;
  scrollHeight : num
}.

(** [Headroom.options], lines 336-353. *)
Definition default_classes : Classes := {|
  cls_frozen := "headroom--frozen";
  cls_pinned := "headroom--pinned";
  cls_unpinned := "headroom--unpinned";
  cls_top := "headroom--top";
  cls_notTop := "headroom--not-top";
  cls_bottom := "headroom--bottom";
  cls_notBottom := "headroom--not-bottom";
  cls_initial := "headroom"
|}.

Definition default_options : Options := {|
  opt_tolerance := TolObject {| down := Finite 0; up := Finite 0 |};
  opt_offset := Finite 0;
  opt_classes := default_classes;
  opt_onPin := false;
  opt_onUnpin := false;
  opt_onTop := false;
  opt_onNotTop := false;
  opt_onBottom := false;
  opt_onNotBottom := false
|}.

(** ** Field assignments *)

Definition set_lastKnownScrollY (y : num) (h : widget) : widget := {|
  lastKnownScrollY := y;
  elem := elem h;
  tolerance := tolerance h;
  classes := classes h;
  offset := offset h;
  initialised := initialised h;
  onPin := onPin h;
  onUnpin := onUnpin h;
  onTop := onTop h;
  onNotTop := onNotTop h;
  onBottom := onBottom h;
  onNotBottom := onNotBottom h;
  frozen := frozen h;
  calls := calls h
|}.

Definition set_elem (cl : gset string) (h : widget) : widget := {|
  lastKnownScrollY := lastKnownScrollY h;
  elem := cl;
  tolerance := tolerance h;
  classes := classes h;
  offset := offset h;
  initialised := initialised h;
  onPin := onPin h;
  onUnpin := onUnpin h;
  onTop := onTop h;
  onNotTop := onNotTop h;
  onBottom := onBottom h;
  onNotBottom := onNotBottom h;
  frozen := frozen h;
  calls := calls h
|}.

Definition set_tolerance (t : Tolerance) (h : widget) : widget := {|
  lastKnownScrollY := lastKnownScrollY h;
  elem := elem h;
  tolerance := t;
  classes := classes h;
  offset := offset h;
  initialised := initialised h;
  onPin := onPin h;
  onUnpin := onUnpin h;
  onTop := onTop h;
  onNotTop := onNotTop h;
  onBottom := onBottom h;
  onNotBottom := onNotBottom h;
  frozen := frozen h;
  calls := calls h
|}.

Definition set_frozen (b : bool) (h : widget) : widget := {|
  lastKnownScrollY := lastKnownScrollY h;
  elem := elem h;
  tolerance := tolerance h;
  classes := classes h;
  offset := offset h;
  initialised := initialised h;
  onPin := onPin h;
  onUnpin := onUnpin h;
  onTop := onTop h;
  onNotTop := onNotTop h;
  onBottom := onBottom h;
  onNotBottom := onNotBottom h;
  frozen := b;
  calls := calls h
|}.

Definition set_calls (l : list callback) (h : widget) : widget := {|
  lastKnownScrollY := lastKnownScrollY h;
  elem := elem h;
  tolerance := tolerance h;
  classes := classes h;
  offset := offset h;
  initialised := initialised h;
  onPin := onPin h;
  onUnpin := onUnpin h;
  onTop := onTop h;
  onNotTop := onNotTop h;
  onBottom := onBottom h;
  onNotBottom := onNotBottom h;
  frozen := frozen h;
  calls := l
|}.

(** ** The class list and the callbacks *)

(** [classList.contains(c)] *)
Definition contains (c : string) (h : widget) : bool :=
  bool_decide (c ∈ elem h).

(** [classList.add(c)] *)
Definition classList_add (c : string) (h : widget) : widget :=
  set_elem (elem h ∪ {[ c ]}) h.

(** [classList.remove(c)] *)
Definition classList_remove (c : string) (h : widget) : widget :=
  set_elem (elem h ∖ {[ c ]}) h.

(** [if (this.onX) { this.onX.call(this); }] *)
Definition invoke (registered : bool) (c : callback) (h : widget) : widget :=
  if registered then set_calls (calls h ++ [c]) h else h.

(** ** The source's functions *)

(** Lines 31-33. *)
Definition normalizeTolerance (t : ToleranceOption) : Tolerance :=
  match t with
  | TolObject o => o
  | TolNumber n => {| down := n; up := n |}
  end.

(** Lines 43-61: the constructor. *)
Definition Headroom (el : gset string) (options : Options) : widget := {|
  lastKnownScrollY := Finite 0;
  elem := el;
  tolerance := normalizeTolerance (opt_tolerance options);
  classes := opt_classes options;
  offset := opt_offset options;
  initialised := false;
  onPin := opt_onPin options;
  onUnpin := opt_onUnpin options;
  onTop := opt_onTop options;
  onNotTop := opt_onNotTop options;
  onBottom := opt_onBottom options;
  onNotBottom := opt_onNotBottom options;
  frozen := false;
  calls := []
|}.

(** How [new Headroom(elem, options)] completes.  The constructor body has no
    [throw] and calls nothing that validates its options, so the completion
    is always normal. *)
Inductive completion : Type :=
| Normal (h : widget)
| Throw.

Definition new_Headroom (el : gset string) (options : Options) : completion :=
  Normal (Headroom el options).

(** Lines 123-137. *)
Definition unpin (h : widget) : widget :=
  if contains (cls_pinned (classes h)) h
     || negb (contains (cls_unpinned (classes h)) h)
  then
    let h := classList_add (cls_unpinned (classes h)) h in
    let h := classList_remove (cls_pinned (classes h)) h in
    invoke (onUnpin h) OnUnpin h
  else h.

(** Lines 142-153. *)
Definition pin (h : widget) : widget :=
  if contains (cls_unpinned (classes h)) h then
    let h := classList_remove (cls_unpinned (classes h)) h in
    let h := classList_add (cls_pinned (classes h)) h in
    invoke (onPin h) OnPin h
  else h.

(** Lines 158-169. *)
Definition top (h : widget) : widget :=
  if negb (contains (cls_top (classes h)) h) then
    let h := classList_add (cls_top (classes h)) h in
    let h := classList_remove (cls_notTop (classes h)) h in
    invoke (onTop h) OnTop h
  else h.

(** Lines 174-185. *)
Definition notTop (h : widget) : widget :=
  if negb (contains (cls_notTop (classes h)) h) then
    let h := classList_add (cls_notTop (classes h)) h in
    let h := classList_remove (cls_top (classes h)) h in
    invoke (onNotTop h) OnNotTop h
  else h.

(** Lines 187-198. *)
Definition bottom (h : widget) : widget :=
  if negb (contains (cls_bottom (classes h)) h) then
    let h := classList_add (cls_bottom (classes h)) h in
    let h := classList_remove (cls_notBottom (classes h)) h in
    invoke (onBottom h) OnBottom h
  else h.

(** Lines 203-215. *)
Definition notBottom (h : widget) : widget :=
  if negb (contains (cls_notBottom (classes h)) h) then
    let h := classList_add (cls_notBottom (classes h)) h in
    let h := classList_remove (cls_bottom (classes h)) h in
    invoke (onNotBottom h) OnNotBottom h
  else h.

(** Lines 222-229. *)
Definition isOutOfBounds (src : ScrollSource) (currentScrollY : num) : bool :=
  let pastTop := (currentScrollY <? Finite 0)%num in
  let pastBottom := (currentScrollY + height src >? scrollHeight src)%num in
  pastTop || pastBottom.

(** Lines 236-241. *)
Definition toleranceExceeded (h : widget) (currentScrollY : num)
    (direction : Direction) : bool :=
  (num_abs (currentScrollY - lastKnownScrollY h)
     >=? tolerance_at (tolerance h) direction)%num.

(** Lines 249-254. *)
Definition shouldUnpin (h : widget) (currentScrollY : num)
    (toleranceExceeded : bool) : bool :=
  let scrollingDown := (currentScrollY >? lastKnownScrollY h)%num in
  let pastOffset := (currentScrollY >=? offset h)%num in
  scrollingDown && pastOffset && toleranceExceeded.

(** Lines 262-267. *)
Definition shouldPin (h : widget) (currentScrollY : num)
    (toleranceExceeded : bool) : bool :=
  let scrollingUp := (currentScrollY <? lastKnownScrollY h)%num in
  let pastOffset := (currentScrollY <=? offset h)%num in
  (scrollingUp && toleranceExceeded) || pastOffset.

(** Lines 274-275: the direction that selects the tolerance. *)
Definition scrollDirection (h : widget) (currentScrollY : num) : Direction :=
  if (currentScrollY >? lastKnownScrollY h)%num then Down else Up.

(** Lines 272-313. *)
Definition update (src : ScrollSource) (h : widget) : widget :=
  let currentScrollY := scrollY src in
  let scrollDirection := scrollDirection h currentScrollY in
  let toleranceExceeded := toleranceExceeded h currentScrollY scrollDirection in
  if isOutOfBounds src currentScrollY then h
  else if frozen h then set_lastKnownScrollY currentScrollY h
  else
    let h :=
      if (currentScrollY <=? offset h)%num then top h else notTop h in
    let h :=
      if (currentScrollY + height src >=? scrollHeight src)%num
      then bottom h else notBottom h in
    let h :=
      if shouldUnpin h currentScrollY toleranceExceeded then unpin h
      else if shouldPin h currentScrollY toleranceExceeded then pin h
      else h in
    set_lastKnownScrollY currentScrollY h.

(** Lines 318-321. *)
Definition freeze (h : widget) : widget :=
  let h := set_frozen true h in
  classList_add (cls_frozen (classes h)) h.

(** Lines 326-329. *)
Definition unfreeze (h : widget) : widget :=
  let h := set_frozen false h in
  classList_remove (cls_frozen (classes h)) h.

(** ** Vocabulary of the properties *)

(** The callbacks that [f] invokes when it runs on [h]. *)
Definition fired_by (f : widget -> widget) (h : widget) : list callback :=
  drop (length (calls h)) (calls (f h)).

(** The transition that invokes a given callback. *)
Definition transition (c : callback) : widget -> widget :=
  match c with
  | OnPin => pin
  | OnUnpin => unpin
  | OnTop => top
  | OnNotTop => notTop
  | OnBottom => bottom
  | OnNotBottom => notBottom
  end.

(** Lines 291-295 and 297-304: the top and the bottom step of a tick. *)
Definition topStep (src : ScrollSource) (h : widget) : widget :=
  if (scrollY src <=? offset h)%num then top h else notTop h.

Definition bottomStep (src : ScrollSource) (h : widget) : widget :=
  if (scrollY src + height src >=? scrollHeight src)%num
  then bottom h else notBottom h.

(** Which of [unpin()] and [pin()] a tick calls (lines 306-310), if it gets
    that far. *)
Inductive pinCall : Type := CallsUnpin | CallsPin | CallsNeither.

#[global] Instance pinCall_eq_dec : EqDecision pinCall.
Proof. solve_decision. Defined.

Definition pinAxisCall (src : ScrollSource) (h : widget) : pinCall :=
  let currentScrollY := scrollY src in
  let toleranceExceeded :=
    toleranceExceeded h currentScrollY (scrollDirection h currentScrollY) in
  if isOutOfBounds src currentScrollY then CallsNeither
  else if frozen h then CallsNeither
  else if shouldUnpin h currentScrollY toleranceExceeded then CallsUnpin
  else if shouldPin h currentScrollY toleranceExceeded then CallsPin
  else CallsNeither.

Definition doPinCall (c : pinCall) (h : widget) : widget :=
  match c with
  | CallsUnpin => unpin h
  | CallsPin => pin h
  | CallsNeither => h
  end.


(** The class names of the three axes are six different names, as they are
    in [Headroom.options]. *)
Definition axis_class_names (cs : Classes) : list string :=
  [cls_pinned cs; cls_unpinned cs; cls_top cs; cls_notTop cs;
   cls_bottom cs; cls_notBottom cs].

Definition classes_distinct (cs : Classes) : Prop :=
  NoDup (axis_class_names cs).

(** The two classes of each pair differ. *)
Definition pairs_distinct (cs : Classes) : Prop :=
  cls_pinned cs <> cls_unpinned cs /\
  cls_top cs <> cls_notTop cs /\
  cls_bottom cs <> cls_notBottom cs.

Inductive axis : Type := PinAxis | TopAxis | BottomAxis.

Definition axis_pair (cs : Classes) (a : axis) : string * string :=
  match a with
  | PinAxis => (cls_pinned cs, cls_unpinned cs)
  | TopAxis => (cls_top cs, cls_notTop cs)
  | BottomAxis => (cls_bottom cs, cls_notBottom cs)
  end.

(** The element carries both classes of the pair of [a]. *)
Definition carries_both (a : axis) (h : widget) : bool :=
  contains (fst (axis_pair (classes h) a)) h
  && contains (snd (axis_pair (classes h) a)) h.

(** The operations a caller can run on the widget. *)
Inductive operation : Type :=
| Update (src : ScrollSource)
| Pin | Unpin | Top | NotTop | Bottom | NotBottom.

Definition exec (o : operation) (h : widget) : widget :=
  match o with
  | Update src => update src h
  | Pin => pin h
  | Unpin => unpin h
  | Top => top h
  | NotTop => notTop h
  | Bottom => bottom h
  | NotBottom => notBottom h
  end.

(** Run the operations from left to right. *)
Fixpoint run (os : list operation) (h : widget) : widget :=
  match os with
  | [] => h
  | o :: os => run os (exec o h)
  end.

(** A sequence of ticks. *)
Fixpoint updates (srcs : list ScrollSource) (h : widget) : widget :=
  match srcs with
  | [] => h
  | src :: srcs => updates srcs (update src h)
  end.

Definition is_pin_axis (c : callback) : bool :=
  match c with
  | OnPin | OnUnpin => true
  | _ => false
  end.

(** The first pin-axis callback of a trace. *)
Fixpoint first_pin_callback (l : list callback) : option callback :=
  match l with
  | [] => None
  | c :: l => if is_pin_axis c then Some c else first_pin_callback l
  end.

(** The fields no transition assigns. *)
Definition settings (h : widget) :=
  (lastKnownScrollY h, tolerance h, classes h, offset h, initialised h,
   frozen h, (onPin h, onUnpin h, onTop h, onNotTop h, onBottom h,
              onNotBottom h)).

(** The guard of each transition. *)
Definition applies (c : callback) (h : widget) : bool :=
  match c with
  | OnPin => contains (cls_unpinned (classes h)) h
  | OnUnpin =>
      contains (cls_pinned (classes h)) h
      || negb (contains (cls_unpinned (classes h)) h)
  | OnTop => negb (contains (cls_top (classes h)) h)
  | OnNotTop => negb (contains (cls_notTop (classes h)) h)
  | OnBottom => negb (contains (cls_bottom (classes h)) h)
  | OnNotBottom => negb (contains (cls_notBottom (classes h)) h)
  end.

(** Whether the caller registered the callback. *)
Definition registered (c : callback) (h : widget) : bool :=
  match c with
  | OnPin => onPin h
  | OnUnpin => onUnpin h
  | OnTop => onTop h
  | OnNotTop => onNotTop h
  | OnBottom => onBottom h
  | OnNotBottom => onNotBottom h
  end.

(** The class list a transition leaves when its guard holds. *)
Definition new_elem (c : callback) (h : widget) : gset string :=
  let cs := classes h in
  match c with
  | OnPin => (elem h ∖ {[ cls_unpinned cs ]}) ∪ {[ cls_pinned cs ]}
  | OnUnpin => (elem h ∪ {[ cls_unpinned cs ]}) ∖ {[ cls_pinned cs ]}
  | OnTop => (elem h ∪ {[ cls_top cs ]}) ∖ {[ cls_notTop cs ]}
  | OnNotTop => (elem h ∪ {[ cls_notTop cs ]}) ∖ {[ cls_top cs ]}
  | OnBottom => (elem h ∪ {[ cls_bottom cs ]}) ∖ {[ cls_notBottom cs ]}
  | OnNotBottom => (elem h ∪ {[ cls_notBottom cs ]}) ∖ {[ cls_bottom cs ]}
  end.

(** The axis a transition belongs to. *)
Definition axis_of (c : callback) : axis :=
  match c with
  | OnPin | OnUnpin => PinAxis
  | OnTop | OnNotTop => TopAxis
  | OnBottom | OnNotBottom => BottomAxis
  end.

(** Run transitions from left to right. *)
Fixpoint transitions (cs : list callback) (h : widget) : widget :=
  match cs with
  | [] => h
  | c :: cs => transitions cs (transition c h)
  end.

(** The transitions a tick runs, in order: top or notTop, bottom or
    notBottom, then unpin or pin if the reading calls for one. *)
Definition tick_plan (src : ScrollSource) (h : widget) : list callback :=
  if isOutOfBounds src (scrollY src) || frozen h then []
  else
    [if (scrollY src <=? offset h)%num then OnTop else OnNotTop;
     if (scrollY src + height src >=? scrollHeight src)%num
     then OnBottom else OnNotBottom]
    ++ match pinAxisCall src h with
       | CallsUnpin => [OnUnpin]
       | CallsPin => [OnPin]
       | CallsNeither => []
       end.

(** No pin-axis callback has fired and [pin()] cannot fire one, or the first
    one that fired is [onUnpin]. *)
Definition unpin_first (h : widget) : Prop :=
  ((cls_unpinned (classes h) ∉ elem h) /\ first_pin_callback (calls h) = None)
  \/ first_pin_callback (calls h) = Some OnUnpin.

(** ** Sample widgets and readings *)

Definition reading (y vh ch : Z) : ScrollSource :=
  {| scrollY := Finite y; height := Finite vh; scrollHeight := Finite ch |}.

Definition all_callbacks (o : Options) : Options := {|
  opt_tolerance := opt_tolerance o;
  opt_offset := opt_offset o;
  opt_classes := opt_classes o;
  opt_onPin := true;
  opt_onUnpin := true;
  opt_onTop := true;
  opt_onNotTop := true;
  opt_onBottom := true;
  opt_onNotBottom := true
|}.

(** A page scrolled to 50 with the header hidden. *)
Definition scrolled_widget : widget :=
  set_lastKnownScrollY (Finite 50)
    (Headroom {[ "headroom"; "headroom--unpinned"; "headroom--not-top";
                 "headroom--not-bottom" ]}
       (all_callbacks default_options)).

(** A fresh widget at the top of the page. *)
Definition fresh_widget : widget :=
  Headroom {[ "headroom" ]} (all_callbacks default_options).

(** A widget at the top of the page that carries the top classes. *)
Definition top_widget : widget :=
  Headroom {[ "headroom"; "headroom--top"; "headroom--not-bottom" ]}
    (all_callbacks default_options).

Definition nan_reading : ScrollSource :=
  {| scrollY := NaN; height := Finite 500; scrollHeight := Finite 2000 |}.

(** A page scrolled to its very end. *)
Definition end_reading : ScrollSource := reading 1500 500 2000.

Definition negative_options : Options := {|
  opt_tolerance := TolNumber (Finite (-3));
  opt_offset := Finite (-5);
  opt_classes := default_classes;
  opt_onPin := false;
  opt_onUnpin := false;
  opt_onTop := false;
  opt_onNotTop := false;
  opt_onBottom := false;
  opt_onNotBottom := false
|}.

(** Only [onPin] is registered. *)
Definition onPin_only_options : Options := {|
  opt_tolerance := opt_tolerance default_options;
  opt_offset := opt_offset default_options;
  opt_classes := opt_classes default_options;
  opt_onPin := true;
  opt_onUnpin := false;
  opt_onTop := false;
  opt_onNotTop := false;
  opt_onBottom := false;
  opt_onNotBottom := false
|}.

Definition tolerance_of (dn u : Z) : Tolerance :=
  {| down := Finite dn; up := Finite u |}.

(** A widget whose offset is 100, last seen at 95 with the header hidden. *)
Definition offset_widget : widget :=
  set_lastKnownScrollY (Finite 95)
    (Headroom {[ "headroom"; "headroom--unpinned"; "headroom--top";
                 "headroom--not-bottom" ]}
       {| opt_tolerance := TolNumber (Finite 0);
          opt_offset := Finite 100;
          opt_classes := default_classes;
          opt_onPin := true;
          opt_onUnpin := true;
          opt_onTop := true;
          opt_onNotTop := true;
          opt_onBottom := true;
          opt_onNotBottom := true |}).

(** ** Lifecycle and the calls that leave the widget *)

Definition set_initialised (b : bool) (h : widget) : widget := {|
  lastKnownScrollY := lastKnownScrollY h;
  elem := elem h;
  tolerance := tolerance h;
  classes := classes h;
  offset := offset h;
  initialised := b;
  onPin := onPin h;
  onUnpin := onUnpin h;
  onTop := onTop h;
  onNotTop := onNotTop h;
  onBottom := onBottom h;
  onNotBottom := onNotBottom h;
  frozen := frozen h;
  calls := calls h
|}.

(** What feature detection answers ([features] is imported at line 1). *)
Record Features : Type := {
  feat_rAF : bool;
  feat_bind : bool;
  feat_classList : bool;
  feat_passiveSupported : bool
}.


(** The third argument of [addEventListener] and [removeEventListener]: the
    options object, or its [capture] flag alone. *)
Inductive listenerArg : Type :=
| ListenerOptions (capture passive : bool)
| UseCapture (capture : bool).

(** The calls a lifecycle method makes on its collaborators: the scroller
    (always with the type "scroll" and [this.debouncer] as the handler), the
    debouncer and the timer.  A method returns the widget together with the
    calls it made, in order. *)
Inductive effect : Type :=
| AddEventListener (arg : listenerArg)
| RemoveEventListener (arg : listenerArg)
| NewDebouncer
| HandleEvent
| SetTimeout_attachEvent (delay : Z).

(** Lines 9-15 and 20-26, on the options [{capture, passive}]. *)
Definition optionsOrCapture (f : Features) (capture passive : bool)
    : listenerArg :=
  if negb (feat_passiveSupported f) then UseCapture capture
  else ListenerOptions capture passive.

Definition addEventListenerWithOptions (f : Features)
    (capture passive : bool) : effect :=
  AddEventListener (optionsOrCapture f capture passive).

Definition removeEventListenerWithOptions (f : Features)
    (capture passive : bool) : effect :=
  RemoveEventListener (optionsOrCapture f capture passive).

(** The flag by which the scroller matches a listener to remove with a
    registered one. *)
Definition capture_of (a : listenerArg) : bool :=
  match a with
  | ListenerOptions capture _ => capture
  | UseCapture capture => capture
  end.

(** The values of the keys of [classes], in the order of [Headroom.options]. *)
Definition class_names (cs : Classes) : list string :=
  [cls_frozen cs; cls_pinned cs; cls_unpinned cs; cls_top cs; cls_notTop cs;
   cls_bottom cs; cls_notBottom cs; cls_initial cs].


(** Lines 86-101. *)
Definition destroy (f : Features) (h : widget) : widget * list effect :=
  let h := set_initialised false h in
  let h := foldl (fun h c => classList_remove c h) h (class_names (classes h)) in
  (h, [removeEventListenerWithOptions f false true]).

(** Lines 107-118; [src] is what [scrollSource.scrollY()] answers. *)
Definition attachEvent (f : Features) (src : ScrollSource) (h : widget)
    : widget * list effect :=
  if negb (initialised h) then
    let h := set_lastKnownScrollY (scrollY src) h in
    let h := set_initialised true h in
    (h, [addEventListenerWithOptions f false true; HandleEvent])
  else (h, []).

(** ** Vocabulary of the further properties *)

(** The position a sequence of ticks leaves in [lastKnownScrollY]: that of
    the last reading in bounds. *)
Fixpoint last_in_bounds (srcs : list ScrollSource) (y : num) : num :=
  match srcs with
  | [] => y
  | src :: srcs =>
      last_in_bounds srcs
        (if isOutOfBounds src (scrollY src) then y else scrollY src)
  end.

(** The place of a callback in the order of a tick. *)
Definition axis_rank (c : callback) : nat :=
  match axis_of c with
  | TopAxis => 0%nat
  | BottomAxis => 1%nat
  | PinAxis => 2%nat
  end.


Definition is_finite (a : num) : bool :=
  match a with
  | Finite _ => true
  | _ => false
  end.

Definition all_features : Features :=
  {| feat_rAF := true; feat_bind := true; feat_classList := true;
     feat_passiveSupported := true |}.

(** A widget that is pinned, below the offset line of the default options. *)
Definition pinned_widget : widget :=
  set_lastKnownScrollY (Finite 50)
    (Headroom {[ "headroom"; "headroom--pinned"; "headroom--not-top";
                 "headroom--not-bottom" ]}
       (all_callbacks default_options)).

(** The class a transition puts on the element and the one it takes off. *)
Definition added (c : callback) (cs : Classes) : string :=
  match c with
  | OnPin => cls_pinned cs
  | OnUnpin => cls_unpinned cs
  | OnTop => cls_top cs
  | OnNotTop => cls_notTop cs
  | OnBottom => cls_bottom cs
  | OnNotBottom => cls_notBottom cs
  end.

Definition removed (c : callback) (cs : Classes) : string :=
  match c with
  | OnPin => cls_unpinned cs
  | OnUnpin => cls_pinned cs
  | OnTop => cls_notTop cs
  | OnNotTop => cls_top cs
  | OnBottom => cls_notBottom cs
  | OnNotBottom => cls_bottom cs
  end.

(** The transition of the top step and of the bottom step of a tick. *)
Definition top_choice (src : ScrollSource) (h : widget) : callback :=
  if (scrollY src <=? offset h)%num then OnTop else OnNotTop.

Definition bottom_choice (src : ScrollSource) : callback :=
  if (scrollY src + height src >=? scrollHeight src)%num
  then OnBottom else OnNotBottom.

(** * Properties *)

(** ** The specification's scenarios, run on the model *)

Example scenario_scroll_down :
  calls (update (reading 50 500 2000) fresh_widget)
  = [OnNotTop; OnNotBottom; OnUnpin].
Proof. reflexivity. Qed.

Example scenario_scroll_back_up :
  fired_by (update (reading 10 500 2000))
    (update (reading 50 500 2000) fresh_widget)
  = [OnPin].
Proof. reflexivity. Qed.

Example scenario_overscroll :
  update (reading (-5) 500 2000) scrolled_widget = scrolled_widget.
Proof. reflexivity. Qed.

Example scenario_frozen :
  calls (update (reading 200 500 2000) (freeze fresh_widget)) = [] /\
  lastKnownScrollY (update (reading 200 500 2000) (freeze fresh_widget))
  = Finite 200 /\
  pinAxisCall (reading 205 500 2000)
    (set_tolerance (tolerance_of 10 10)
       (unfreeze (update (reading 200 500 2000) (freeze fresh_widget))))
  = CallsNeither.
Proof. repeat split. Qed.

Example scenario_bottom :
  fired_by (update end_reading) scrolled_widget = [OnBottom].
Proof. reflexivity. Qed.

(** ** Numbers: comparison facts *)

Lemma num_eq_true (a b : num) : (a =? b)%num = true -> a = b.
Proof.
  destruct a, b; simpl; try discriminate; try reflexivity.
  intros H. apply Z.eqb_eq in H. by subst.
Qed.

Lemma num_lt_irrefl_eq (a b : num) :
  (a =? b)%num = true -> (a <? b)%num = false.
Proof. destruct a, b; simpl; try discriminate; try reflexivity; lia. Qed.

Lemma num_gt_irrefl_eq (a b : num) :
  (a =? b)%num = true -> (a >? b)%num = false.
Proof.
  unfold num_gt. destruct a, b; simpl; try discriminate; try reflexivity; lia.
Qed.

Lemma num_eq_ge (a b : num) : (a =? b)%num = true -> (a >=? b)%num = true.
Proof.
  unfold num_ge, num_le.
  destruct a, b; simpl; try discriminate; try reflexivity; lia.
Qed.

Lemma num_ge_not_lt (a b : num) : (a >=? b)%num = true -> (a <? b)%num = false.
Proof.
  unfold num_ge, num_le.
  destruct a, b; simpl; try discriminate; try reflexivity; lia.
Qed.

Lemma num_lt_NaN_r (a : num) : (a <? NaN)%num = false.
Proof. by destruct a. Qed.

Lemma num_le_NaN_r (a : num) : (a <=? NaN)%num = false.
Proof. by destruct a. Qed.


(** ** What the transitions leave alone *)

Lemma transition_settings (c : callback) (h : widget) :
  settings (transition c h) = settings h.
Proof.
  destruct c;
    unfold transition, pin, unpin, top, notTop, bottom, notBottom, invoke,
      classList_add, classList_remove, contains; simpl;
    repeat match goal with
           | |- context [if ?b then _ else _] => destruct b; simpl
           end; reflexivity.
Qed.

Lemma classes_transition c h : classes (transition c h) = classes h.
Proof.
  by pose proof (transition_settings c h) as [= _ _ -> _ _ _ _ _ _ _ _ _].
Qed.

Lemma registered_transition c c' h :
  registered c (transition c' h) = registered c h.
Proof.
  pose proof (transition_settings c' h) as [= _ _ _ _ _ _ H1 H2 H3 H4 H5 H6].
  destruct c; simpl; assumption.
Qed.

Lemma topStep_settings src h : settings (topStep src h) = settings h.
Proof.
  unfold topStep. destruct (_ <=? _)%num.
  - apply (transition_settings OnTop).
  - apply (transition_settings OnNotTop).
Qed.

Lemma bottomStep_settings src h : settings (bottomStep src h) = settings h.
Proof.
  unfold bottomStep. destruct (_ >=? _)%num.
  - apply (transition_settings OnBottom).
  - apply (transition_settings OnNotBottom).
Qed.

Lemma shouldUnpin_settings h h' y te :
  settings h' = settings h -> shouldUnpin h' y te = shouldUnpin h y te.
Proof.
  unfold settings, shouldUnpin. intros [= -> _ _ -> _ _ _ _ _ _ _ _].
  reflexivity.
Qed.

Lemma shouldPin_settings h h' y te :
  settings h' = settings h -> shouldPin h' y te = shouldPin h y te.
Proof.
  unfold settings, shouldPin. intros [= -> _ _ -> _ _ _ _ _ _ _ _].
  reflexivity.
Qed.

(** ** The shape of a tick *)

(** The body of [update] past the two guards, step by step. *)
Lemma update_steps src h :
  isOutOfBounds src (scrollY src) = false ->
  frozen h = false ->
  update src h =
    set_lastKnownScrollY (scrollY src)
      (doPinCall (pinAxisCall src h) (bottomStep src (topStep src h))).
Proof.
  intros Hb Hf. unfold update, pinAxisCall. rewrite Hb, Hf.
  fold (topStep src h). fold (bottomStep src (topStep src h)).
  assert (Hs : settings (bottomStep src (topStep src h)) = settings h)
    by (rewrite bottomStep_settings; apply topStep_settings).
  rewrite (shouldUnpin_settings _ _ _ _ Hs), (shouldPin_settings _ _ _ _ Hs).
  destruct (shouldUnpin _ _ _); [reflexivity |].
  destruct (shouldPin _ _ _); reflexivity.
Qed.

(** A tick is its plan of transitions, then the position is stored. *)
Lemma update_plan (src : ScrollSource) (h : widget) :
  update src h =
    if isOutOfBounds src (scrollY src) then h
    else set_lastKnownScrollY (scrollY src) (transitions (tick_plan src h) h).
Proof.
  unfold tick_plan.
  destruct (isOutOfBounds src (scrollY src)) eqn:Hb.
  - unfold update. by rewrite Hb.
  - destruct (frozen h) eqn:Hf.
    + unfold update. by rewrite Hb, Hf.
    + rewrite update_steps by assumption. simpl.
      unfold topStep, bottomStep.
      destruct (_ <=? _)%num, (_ >=? _)%num, (pinAxisCall src h); reflexivity.
Qed.

Lemma isOutOfBounds_NaN src : isOutOfBounds src NaN = false.
Proof. unfold isOutOfBounds, num_gt. simpl. apply num_lt_NaN_r. Qed.

(** ** One transition *)

Lemma transition_unfold (c : callback) (h : widget) :
  transition c h =
    if applies c h
    then invoke (registered c h) c (set_elem (new_elem c h) h)
    else h.
Proof. destruct c; reflexivity. Qed.

Lemma transition_skip c h : applies c h = false -> transition c h = h.
Proof. intros H. by rewrite transition_unfold, H. Qed.

Lemma elem_transition c h :
  elem (transition c h) = if applies c h then new_elem c h else elem h.
Proof.
  rewrite transition_unfold. unfold invoke.
  destruct (applies c h), (registered c h); reflexivity.
Qed.

Lemma calls_transition c h :
  calls (transition c h) =
    if applies c h && registered c h then calls h ++ [c] else calls h.
Proof.
  rewrite transition_unfold. unfold invoke.
  destruct (applies c h), (registered c h); reflexivity.
Qed.

(** A transition touches only the two classes of its own axis. *)
Lemma elem_transition_other (x : string) (c : callback) (h : widget) :
  x <> fst (axis_pair (classes h) (axis_of c)) ->
  x <> snd (axis_pair (classes h) (axis_of c)) ->
  x ∈ elem (transition c h) <-> x ∈ elem h.
Proof.
  intros H1 H2. rewrite elem_transition.
  destruct (applies c h); [| done].
  destruct c; unfold new_elem; simpl in *; set_solver.
Qed.

(** Once a transition has run its guard is off. *)
Lemma applies_after (c : callback) (h : widget) :
  pairs_distinct (classes h) -> applies c (transition c h) = false.
Proof.
  intros (Hp & Ht & Hb).
  destruct c; unfold applies at 1; rewrite classes_transition;
    unfold contains; rewrite elem_transition;
    unfold applies, new_elem, contains;
    repeat case_bool_decide; simpl; try done;
    repeat case_bool_decide; simpl; try done; set_solver.
Qed.

(** ** Callbacks fired *)

Lemma fired_by_same f h : calls (f h) = calls h -> fired_by f h = [].
Proof. intros H. unfold fired_by. rewrite H. apply drop_all. Qed.

Lemma fired_by_app f h l : calls (f h) = calls h ++ l -> fired_by f h = l.
Proof. intros H. unfold fired_by. rewrite H. apply drop_app_length. Qed.

Lemma fired_by_transition c h :
  fired_by (transition c) h = if applies c h && registered c h then [c] else [].
Proof.
  destruct (applies c h && registered c h) eqn:E.
  - apply fired_by_app. by rewrite calls_transition, E.
  - apply fired_by_same. by rewrite calls_transition, E.
Qed.

Lemma calls_prefix_transition c h :
  calls (transition c h) = calls h ++ fired_by (transition c) h.
Proof.
  rewrite fired_by_transition, calls_transition.
  destruct (applies c h && registered c h); [done | by rewrite app_nil_r].
Qed.

Lemma calls_prefix_transitions cs :
  forall h, calls (transitions cs h) = calls h ++ fired_by (transitions cs) h.
Proof.
  induction cs as [| c cs IH]; intros h; simpl.
  - unfold fired_by. simpl. by rewrite drop_all, app_nil_r.
  - unfold fired_by at 1. simpl.
    rewrite IH, calls_prefix_transition, <- app_assoc.
    by rewrite drop_app_length.
Qed.

Lemma fired_by_cons c cs h :
  fired_by (transitions (c :: cs)) h =
    fired_by (transition c) h ++ fired_by (transitions cs) (transition c h).
Proof.
  apply fired_by_app. simpl.
  by rewrite calls_prefix_transitions, calls_prefix_transition, <- app_assoc.
Qed.

(** Only the callbacks of the plan can fire. *)
Lemma fired_by_transitions_subset (x : callback) cs :
  forall h, x ∈ fired_by (transitions cs) h -> x ∈ cs.
Proof.
  induction cs as [| c cs IH]; intros h.
  - unfold fired_by. simpl. rewrite drop_all. by intros ?%elem_of_nil.
  - rewrite fired_by_cons, elem_of_app, fired_by_transition.
    intros [H | H].
    + destruct (applies c h && registered c h); [| by apply elem_of_nil in H].
      apply list_elem_of_singleton in H. subst. by left.
    + right. by apply (IH _ H).
Qed.

Lemma fired_by_update src h :
  fired_by (update src) h = fired_by (transitions (tick_plan src h)) h.
Proof.
  unfold fired_by. rewrite update_plan. unfold tick_plan.
  destruct (isOutOfBounds src (scrollY src)); simpl; reflexivity.
Qed.

Lemma first_pin_callback_app (l : list callback) (c : callback) :
  first_pin_callback (l ++ [c]) =
    match first_pin_callback l with
    | Some x => Some x
    | None => if is_pin_axis c then Some c else None
    end.
Proof.
  induction l as [| x l IH]; simpl; [reflexivity |].
  destruct (is_pin_axis x); [reflexivity | exact IH].
Qed.

(** ** Invariants of operation sequences *)

Section Preservation.
Variable P : widget -> Prop.
Hypothesis P_transition : forall c h, P h -> P (transition c h).
Hypothesis P_position : forall y h, P h -> P (set_lastKnownScrollY y h).

Lemma transitions_preserve cs : forall h, P h -> P (transitions cs h).
Proof. induction cs as [| c cs IH]; simpl; auto. Qed.

Lemma update_preserve src h : P h -> P (update src h).
Proof.
  intros H. rewrite update_plan. destruct (isOutOfBounds _ _); [done |].
  by apply P_position, transitions_preserve.
Qed.

Lemma updates_preserve srcs : forall h, P h -> P (updates srcs h).
Proof.
  induction srcs as [| src srcs IH]; simpl; [done |].
  intros h H. by apply IH, update_preserve.
Qed.

Lemma exec_preserve o h : P h -> P (exec o h).
Proof.
  intros H. destruct o; simpl; first (by apply update_preserve).
  - by apply (P_transition OnPin).
  - by apply (P_transition OnUnpin).
  - by apply (P_transition OnTop).
  - by apply (P_transition OnNotTop).
  - by apply (P_transition OnBottom).
  - by apply (P_transition OnNotBottom).
Qed.

Lemma run_preserve os : forall h, P h -> P (run os h).
Proof.
  induction os as [| o os IH]; simpl; [done |].
  intros h H. by apply IH, exec_preserve.
Qed.
End Preservation.

(** ** Distinct class names *)

Lemma classes_distinct_neq (cs : Classes) :
  classes_distinct cs ->
  cls_pinned cs <> cls_unpinned cs /\ cls_pinned cs <> cls_top cs /\
  cls_pinned cs <> cls_notTop cs /\ cls_pinned cs <> cls_bottom cs /\
  cls_pinned cs <> cls_notBottom cs /\ cls_unpinned cs <> cls_top cs /\
  cls_unpinned cs <> cls_notTop cs /\ cls_unpinned cs <> cls_bottom cs /\
  cls_unpinned cs <> cls_notBottom cs /\ cls_top cs <> cls_notTop cs /\
  cls_top cs <> cls_bottom cs /\ cls_top cs <> cls_notBottom cs /\
  cls_notTop cs <> cls_bottom cs /\ cls_notTop cs <> cls_notBottom cs /\
  cls_bottom cs <> cls_notBottom cs.
Proof.
  unfold classes_distinct, axis_class_names.
  rewrite !NoDup_cons, !not_elem_of_cons. tauto.
Qed.

Lemma classes_distinct_pairs cs : classes_distinct cs -> pairs_distinct cs.
Proof.
  intros H. apply classes_distinct_neq in H. unfold pairs_distinct. tauto.
Qed.

Lemma default_classes_distinct : classes_distinct default_classes.
Proof. apply (bool_decide_unpack _). by vm_compute. Qed.

Lemma carries_both_transition (a : axis) (c : callback) (h : widget) :
  classes_distinct (classes h) ->
  carries_both a h = false ->
  carries_both a (transition c h) = false.
Proof.
  intros Hd. apply classes_distinct_neq in Hd.
  unfold carries_both. rewrite classes_transition. unfold contains.
  rewrite elem_transition. intros H. apply andb_false_iff in H.
  apply andb_false_iff. rewrite !bool_decide_eq_false in *.
  destruct (applies c h) eqn:Ha; [| exact H].
  destruct a, c; unfold applies, contains in Ha; unfold new_elem; simpl in *;
    set_solver.
Qed.

Lemma unpin_first_transition (c : callback) (h : widget) :
  classes_distinct (classes h) ->
  onUnpin h = true ->
  unpin_first h ->
  unpin_first (transition c h).
Proof.
  intros Hd Hr. apply classes_distinct_neq in Hd.
  unfold unpin_first.
  rewrite classes_transition, elem_transition, calls_transition.
  destruct (applies c h) eqn:Ha; simpl; [| tauto].
  destruct (registered c h) eqn:Hreg; rewrite ?first_pin_callback_app;
    intros [[Hn Hf] | Hf]; rewrite ?Hf; auto;
    destruct c; simpl in *; unfold contains in *;
    try (rewrite Hr in Hreg; discriminate Hreg);
    try (apply bool_decide_eq_true in Ha; contradiction);
    auto; left; (split; [set_solver | auto]).
Qed.


(** At the offset, scrolling down: the tick calls [unpin()] when the
    tolerance is reached and [pin()] when it is not, so the set of readings
    that call [pin()] alone is not antitone in the tolerance. *)
Example unpin_call_becomes_pin_call :
  pinAxisCall (reading 100 500 2000)
    (set_tolerance (tolerance_of 0 0) offset_widget) = CallsUnpin /\
  pinAxisCall (reading 100 500 2000)
    (set_tolerance (tolerance_of 10 10) offset_widget) = CallsPin.
Proof. split; reflexivity. Qed.

(** * The claims *)

(** C1 (amended).  On a tick whose position equals [lastKnownScrollY], in
    bounds and not frozen, the direction that selects the tolerance is "up".
    [shouldPin] however compares with [<] on its own, so the tick does not
    count as scrolling up: [pin()] is called exactly when
    [position <= offset]; otherwise the tick calls neither [pin()] nor
    [unpin()] and only the top and bottom steps run. *)
Theorem update_equal_position (src : ScrollSource) (h : widget) :
  (scrollY src =? lastKnownScrollY h)%num = true ->
  isOutOfBounds src (scrollY src) = false ->
  frozen h = false ->
  scrollDirection h (scrollY src) = Up /\
  ((scrollY src <=? offset h)%num = true ->
     update src h =
       set_lastKnownScrollY (scrollY src) (pin (bottomStep src (top h)))) /\
  ((scrollY src <=? offset h)%num = false ->
     pinAxisCall src h = CallsNeither /\
     update src h =
       set_lastKnownScrollY (scrollY src) (bottomStep src (notTop h))).
Proof.
  intros He Hb Hf.
  pose proof (num_lt_irrefl_eq _ _ He) as Hlt.
  pose proof (num_gt_irrefl_eq _ _ He) as Hgt.
  assert (Hc : pinAxisCall src h =
               if (scrollY src <=? offset h)%num then CallsPin else CallsNeither).
  { unfold pinAxisCall, shouldUnpin, shouldPin. rewrite Hb, Hf, Hgt, Hlt.
    simpl. reflexivity. }
  split; [unfold scrollDirection; by rewrite Hgt |].
  split; intros Ho; rewrite Ho in Hc.
  - rewrite update_steps, Hc by assumption. unfold topStep. by rewrite Ho.
  - split; [exact Hc |].
    rewrite update_steps, Hc by assumption. unfold topStep. by rewrite Ho.
Qed.

Lemma update_equal_position_witness :
  scrollDirection scrolled_widget (Finite 50) = Up /\
  ((Finite 50 <=? offset scrolled_widget)%num = true ->
     update (reading 50 500 2000) scrolled_widget =
       set_lastKnownScrollY (Finite 50)
         (pin (bottomStep (reading 50 500 2000) (top scrolled_widget)))) /\
  ((Finite 50 <=? offset scrolled_widget)%num = false ->
     pinAxisCall (reading 50 500 2000) scrolled_widget = CallsNeither /\
     update (reading 50 500 2000) scrolled_widget =
       set_lastKnownScrollY (Finite 50)
         (bottomStep (reading 50 500 2000) (notTop scrolled_widget))).
Proof. apply (update_equal_position (reading 50 500 2000)); reflexivity. Defined.

(** C1 as stated fails: offset 0, tolerance 0, last position 50, header
    unpinned.  A reading at 50 again is in bounds, its direction is "up" and
    the tolerance is reached, the position is past the offset, and yet the
    element stays unpinned and no callback fires. *)
Lemma equal_position_does_not_pin :
  (scrollY (reading 50 500 2000) =? lastKnownScrollY scrolled_widget)%num
  = true /\
  isOutOfBounds (reading 50 500 2000) (Finite 50) = false /\
  frozen scrolled_widget = false /\
  tolerance scrolled_widget = tolerance_of 0 0 /\
  scrollDirection scrolled_widget (Finite 50) = Up /\
  toleranceExceeded scrolled_widget (Finite 50) Up = true /\
  (Finite 50 >? offset scrolled_widget)%num = true /\
  ("headroom--unpinned" ∈ elem scrolled_widget) /\
  ("headroom--pinned" ∉ elem (update (reading 50 500 2000) scrolled_widget)) /\
  ("headroom--unpinned" ∈ elem (update (reading 50 500 2000) scrolled_widget)) /\
  fired_by (update (reading 50 500 2000)) scrolled_widget = [].
Proof.
  do 7 (split; [reflexivity |]).
  split; [by apply (bool_decide_unpack _); vm_compute |].
  split; [by apply (bool_decide_unpack _); vm_compute |].
  split; [by apply (bool_decide_unpack _); vm_compute | reflexivity].
Qed.

(** C2 (amended).  A tick whose position is NaN is not out of bounds and
    calls neither [pin()] nor [unpin()], every comparison with NaN being
    false; but it is not a no-op.  When frozen it stores NaN in
    [lastKnownScrollY]; otherwise it runs [notTop()] and [notBottom()] (the
    [else] branches of the two false comparisons) and then stores NaN. *)
Theorem update_NaN (src : ScrollSource) (h : widget) :
  scrollY src = NaN ->
  isOutOfBounds src (scrollY src) = false /\
  pinAxisCall src h = CallsNeither /\
  update src h =
    if frozen h then set_lastKnownScrollY NaN h
    else set_lastKnownScrollY NaN (notBottom (notTop h)).
Proof.
  intros Hy.
  assert (Hb : isOutOfBounds src (scrollY src) = false)
    by (rewrite Hy; apply isOutOfBounds_NaN).
  assert (Hc : pinAxisCall src h = CallsNeither).
  { unfold pinAxisCall, shouldUnpin, shouldPin, num_gt. rewrite Hb, Hy.
    rewrite num_lt_NaN_r. destruct (frozen h); reflexivity. }
  split; [exact Hb |]. split; [exact Hc |].
  destruct (frozen h) eqn:Hf.
  - unfold update. rewrite Hb, Hf, Hy. reflexivity.
  - rewrite update_steps, Hc by assumption.
    unfold topStep, bottomStep, num_ge. rewrite Hy. simpl.
    rewrite num_le_NaN_r. reflexivity.
Qed.

Lemma update_NaN_witness :
  isOutOfBounds nan_reading (scrollY nan_reading) = false /\
  pinAxisCall nan_reading top_widget = CallsNeither /\
  update nan_reading top_widget =
    if frozen top_widget then set_lastKnownScrollY NaN top_widget
    else set_lastKnownScrollY NaN (notBottom (notTop top_widget)).
Proof. apply update_NaN. reflexivity. Defined.

(** C2 as stated fails: at the top of the page a NaN reading replaces the
    top class by the not-top class, fires [onNotTop] and turns
    [lastKnownScrollY] from 0 into NaN. *)
Lemma update_NaN_not_noop :
  scrollY nan_reading = NaN /\
  update nan_reading top_widget <> top_widget /\
  lastKnownScrollY top_widget = Finite 0 /\
  lastKnownScrollY (update nan_reading top_widget) = NaN /\
  fired_by (update nan_reading) top_widget = [OnNotTop] /\
  ("headroom--top" ∈ elem top_widget) /\
  ("headroom--top" ∉ elem (update nan_reading top_widget)) /\
  ("headroom--not-top" ∈ elem (update nan_reading top_widget)).
Proof.
  split; [reflexivity |].
  split; [intros H; apply (f_equal lastKnownScrollY) in H; discriminate H |].
  split; [reflexivity |]. split; [reflexivity |]. split; [reflexivity |].
  split; [by apply (bool_decide_unpack _); vm_compute |].
  split; [by apply (bool_decide_unpack _); vm_compute |].
  by apply (bool_decide_unpack _); vm_compute.
Qed.

(** C3 (amended).  The constructor validates nothing: whatever the offset and
    the tolerance, negative ones included, it completes normally and stores
    the offset as given and the tolerance normalised to a [{down, up}] pair,
    neither rejected nor clamped. *)
Theorem Headroom_stores_options (el : gset string) (options : Options) :
  exists w : widget,
    new_Headroom el options = Normal w /\
    offset w = opt_offset options /\
    tolerance w =
      match opt_tolerance options with
      | TolNumber n => {| down := n; up := n |}
      | TolObject o => o
      end.
Proof. exists (Headroom el options). repeat split. Qed.

(** C3 as stated fails: with offset -5 and tolerance -3 the constructor does
    not throw and the widget holds -5 and -3. *)
Lemma Headroom_accepts_negative :
  (opt_offset negative_options <? Finite 0)%num = true /\
  opt_tolerance negative_options = TolNumber (Finite (-3)) /\
  new_Headroom ∅ negative_options <> Throw /\
  exists w : widget,
    new_Headroom ∅ negative_options = Normal w /\
    offset w = Finite (-5) /\
    tolerance w = tolerance_of (-3) (-3).
Proof.
  split; [reflexivity |]. split; [reflexivity |]. split; [discriminate |].
  exists (Headroom ∅ negative_options). repeat split.
Qed.

(** C4.  An out-of-bounds reading ([position < 0], or
    [position + viewportHeight > contentHeight]) leaves the widget exactly as
    it was: class list, [lastKnownScrollY] and every other field, and no
    callback fires. *)
Theorem update_out_of_bounds (src : ScrollSource) (h : widget) :
  (scrollY src <? Finite 0)%num = true \/
  (scrollY src + height src >? scrollHeight src)%num = true ->
  update src h = h /\ fired_by (update src) h = [].
Proof.
  intros H.
  assert (Hb : isOutOfBounds src (scrollY src) = true).
  { unfold isOutOfBounds.
    destruct H as [-> | ->]; [reflexivity | apply orb_true_r]. }
  assert (Hu : update src h = h) by (unfold update; rewrite Hb; reflexivity).
  split; [exact Hu |]. apply fired_by_same. by rewrite Hu.
Qed.

Lemma update_out_of_bounds_witness :
  update (reading (-5) 500 2000) scrolled_widget = scrolled_widget /\
  fired_by (update (reading (-5) 500 2000)) scrolled_widget = [].
Proof. apply update_out_of_bounds. left. reflexivity. Defined.

(** C5.  On an in-bounds tick while [frozen] is true the only change is
    [lastKnownScrollY := position]: the class list is the same and no
    callback fires. *)
Theorem update_frozen (src : ScrollSource) (h : widget) :
  isOutOfBounds src (scrollY src) = false ->
  frozen h = true ->
  update src h = set_lastKnownScrollY (scrollY src) h /\
  elem (update src h) = elem h /\
  fired_by (update src) h = [].
Proof.
  intros Hb Hf.
  assert (Hu : update src h = set_lastKnownScrollY (scrollY src) h)
    by (unfold update; rewrite Hb, Hf; reflexivity).
  split; [exact Hu |]. split; [by rewrite Hu |].
  apply fired_by_same. by rewrite Hu.
Qed.

Lemma update_frozen_witness :
  update (reading 200 500 2000) (freeze scrolled_widget)
    = set_lastKnownScrollY (Finite 200) (freeze scrolled_widget) /\
  elem (update (reading 200 500 2000) (freeze scrolled_widget))
    = elem (freeze scrolled_widget) /\
  fired_by (update (reading 200 500 2000)) (freeze scrolled_widget) = [].
Proof. apply (update_frozen (reading 200 500 2000)); reflexivity. Defined.

(** C6.  Each of [pin], [unpin], [top], [notTop], [bottom] and [notBottom]
    is idempotent: run twice in a row, the second call changes nothing and
    fires no callback, and the two calls together fire the transition's
    callback at most once.  The class and its opposite are two different
    names, as in [Headroom.options]. *)
Theorem transition_idempotent (c : callback) (h : widget) :
  pairs_distinct (classes h) ->
  transition c (transition c h) = transition c h /\
  fired_by (transition c) (transition c h) = [] /\
  (fired_by (fun h0 => transition c (transition c h0)) h = [] \/
   fired_by (fun h0 => transition c (transition c h0)) h = [c]).
Proof.
  intros Hd.
  pose proof (applies_after c h Hd) as Ha.
  split; [by apply transition_skip |].
  split; [by rewrite fired_by_transition, Ha |].
  assert (He : fired_by (fun h0 => transition c (transition c h0)) h
               = fired_by (transition c) h).
  { unfold fired_by. by rewrite (transition_skip c (transition c h) Ha). }
  rewrite He, fired_by_transition.
  destruct (applies c h && registered c h); auto.
Qed.

Lemma transition_idempotent_witness :
  pin (pin scrolled_widget) = pin scrolled_widget /\
  fired_by pin (pin scrolled_widget) = [] /\
  (fired_by (fun h0 => pin (pin h0)) scrolled_widget = [] \/
   fired_by (fun h0 => pin (pin h0)) scrolled_widget = [OnPin]).
Proof.
  apply (transition_idempotent OnPin scrolled_widget).
  apply (bool_decide_unpack _). by vm_compute.
Defined.

(** C7.  When [position + viewportHeight] equals [contentHeight] exactly,
    with [position >= 0] and the widget not frozen, the reading is not out of
    bounds and the tick leaves the element with the bottom class: the
    boundary is inclusive.  If the bottom class was absent the notBottom
    class is gone and [onBottom], when registered, fires; if it was present
    [onBottom] does not fire.  The six axis class names are pairwise
    distinct, as in [Headroom.options]. *)
Theorem update_bottom_inclusive (src : ScrollSource) (h : widget) :
  classes_distinct (classes h) ->
  frozen h = false ->
  (scrollY src >=? Finite 0)%num = true ->
  (scrollY src + height src =? scrollHeight src)%num = true ->
  isOutOfBounds src (scrollY src) = false /\
  (cls_bottom (classes h) ∈ elem (update src h)) /\
  ((cls_bottom (classes h) ∉ elem h) ->
     (cls_notBottom (classes h) ∉ elem (update src h)) /\
     (onBottom h = true -> OnBottom ∈ fired_by (update src) h)) /\
  ((cls_bottom (classes h) ∈ elem h) -> OnBottom ∉ fired_by (update src) h).
Proof.
  intros Hd Hf Hpos Heq.
  pose proof (classes_distinct_neq _ Hd) as Hne.
  assert (Hb : isOutOfBounds src (scrollY src) = false).
  { unfold isOutOfBounds.
    by rewrite (num_ge_not_lt _ _ Hpos), (num_gt_irrefl_eq _ _ Heq). }
  split; [exact Hb |].
  rewrite fired_by_update, update_plan, Hb. unfold tick_plan.
  rewrite Hb, Hf, (num_eq_ge _ _ Heq). simpl.
  set (c1 := if (scrollY src <=? offset h)%num then OnTop else OnNotTop).
  assert (Hax : axis_of c1 = TopAxis) by (subst c1; by destruct (_ <=? _)%num).
  set (h1 := transition c1 h).
  assert (Hc1 : classes h1 = classes h) by apply classes_transition.
  assert (Hb1 : cls_bottom (classes h) ∈ elem h1
                <-> cls_bottom (classes h) ∈ elem h).
  { apply elem_transition_other; rewrite Hax; simpl; naive_solver. }
  set (h2 := transition OnBottom h1).
  assert (Hc2 : classes h2 = classes h)
    by (subst h2; by rewrite classes_transition).
  assert (Hin2 : cls_bottom (classes h) ∈ elem h2).
  { subst h2. rewrite elem_transition. simpl. unfold contains. rewrite Hc1.
    case_bool_decide; simpl; set_solver. }
  assert (Hnb2 : cls_bottom (classes h) ∉ elem h ->
                 cls_notBottom (classes h) ∉ elem h2).
  { intros Hn. subst h2. rewrite elem_transition. simpl. unfold contains.
    rewrite Hc1. case_bool_decide; simpl; set_solver. }
  assert (Hf2 : fired_by (transition OnBottom) h1 =
                if bool_decide (cls_bottom (classes h) ∈ elem h)
                then [] else if onBottom h then [OnBottom] else []).
  { rewrite fired_by_transition. simpl. unfold contains. rewrite Hc1.
    rewrite (bool_decide_ext _ _ Hb1).
    replace (onBottom h1) with (onBottom h)
      by (symmetry; apply (registered_transition OnBottom c1 h)).
    by destruct (bool_decide _), (onBottom h). }
  assert (Hrest : forall x, x <> cls_pinned (classes h) ->
                    x <> cls_unpinned (classes h) ->
                    x ∈ elem (transitions
                                match pinAxisCall src h with
                                | CallsUnpin => [OnUnpin]
                                | CallsPin => [OnPin]
                                | CallsNeither => []
                                end h2) <-> x ∈ elem h2).
  { intros x Hx1 Hx2.
    destruct (pinAxisCall src h);
      [apply (elem_transition_other x OnUnpin)
      | apply (elem_transition_other x OnPin) | done];
      simpl; by rewrite Hc2. }
  assert (Hfire : forall l,
            OnBottom ∈ fired_by (transitions (c1 :: OnBottom :: l)) h <->
            OnBottom ∈ fired_by (transition OnBottom) h1 \/
            OnBottom ∈ fired_by (transitions l) h2).
  { intros l. rewrite !fired_by_cons, !elem_of_app. fold h1. fold h2.
    split; [intros [H | H]; [| exact H] | tauto].
    rewrite fired_by_transition in H.
    destruct (applies c1 h && registered c1 h); [| by apply elem_of_nil in H].
    apply list_elem_of_singleton in H. subst c1.
    by destruct (_ <=? _)%num. }
  split; [apply Hrest; [naive_solver | naive_solver | exact Hin2] |].
  split.
  - intros Hn. split.
    + intros Hx. apply (Hnb2 Hn). revert Hx.
      apply Hrest; naive_solver.
    + intros Hon. apply Hfire. left. rewrite Hf2, Hon.
      rewrite bool_decide_eq_false_2 by done. by left.
  - intros Hin [H | H]%Hfire.
    + rewrite Hf2, bool_decide_eq_true_2 in H by done.
      by apply elem_of_nil in H.
    + apply fired_by_transitions_subset in H.
      destruct (pinAxisCall src h); set_solver.
Qed.

Lemma update_bottom_inclusive_witness :
  isOutOfBounds end_reading (scrollY end_reading) = false /\
  (cls_bottom (classes scrolled_widget)
     ∈ elem (update end_reading scrolled_widget)) /\
  ((cls_bottom (classes scrolled_widget) ∉ elem scrolled_widget) ->
     (cls_notBottom (classes scrolled_widget)
        ∉ elem (update end_reading scrolled_widget)) /\
     (onBottom scrolled_widget = true ->
        OnBottom ∈ fired_by (update end_reading) scrolled_widget)) /\
  ((cls_bottom (classes scrolled_widget) ∈ elem scrolled_widget) ->
     OnBottom ∉ fired_by (update end_reading) scrolled_widget).
Proof.
  apply update_bottom_inclusive.
  - apply (bool_decide_unpack _). by vm_compute.
  - reflexivity.
  - reflexivity.
  - reflexivity.
Defined.









(** C9.  For each axis pair (pinned/unpinned, top/notTop,
    bottom/notBottom): if the element does not carry both classes of the
    pair, then after any sequence of [update], [pin], [unpin], [top],
    [notTop], [bottom] and [notBottom] it still does not carry both.  The six
    axis class names are pairwise distinct, as in [Headroom.options]. *)
Theorem class_pairs_exclusive (a : axis) (os : list operation) (h : widget) :
  classes_distinct (classes h) ->
  carries_both a h = false ->
  carries_both a (run os h) = false.
Proof.
  intros Hd Hc.
  apply (run_preserve
           (fun h => classes_distinct (classes h) /\ carries_both a h = false));
    [| | by split].
  - intros c h' [Hd' Hc']. rewrite classes_transition.
    split; [done |]. by apply carries_both_transition.
  - intros y h' H. exact H.
Qed.

Lemma class_pairs_exclusive_witness :
  carries_both PinAxis
    (run [Update (reading 50 500 2000); Pin; Top; Update end_reading;
          Unpin; Update (reading 10 500 2000); NotBottom]
       fresh_widget) = false.
Proof.
  apply class_pairs_exclusive.
  - apply (bool_decide_unpack _). by vm_compute.
  - by vm_compute.
Defined.

(** C10 (amended).  From a state in which the element does not carry the
    unpinned class and no pin-axis callback has fired, and provided an
    [onUnpin] callback is registered, [onPin] is never the first pin-axis
    callback of a sequence of [update] calls: it does not fire before
    [onUnpin] has.  The six axis class names are pairwise distinct, as in
    [Headroom.options]. *)
Theorem onPin_not_first (srcs : list ScrollSource) (h : widget) :
  classes_distinct (classes h) ->
  onUnpin h = true ->
  cls_unpinned (classes h) ∉ elem h ->
  first_pin_callback (calls h) = None ->
  first_pin_callback (calls (updates srcs h)) <> Some OnPin.
Proof.
  intros Hd Hr Hn Hf.
  assert (H : classes_distinct (classes (updates srcs h)) /\
              onUnpin (updates srcs h) = true /\
              unpin_first (updates srcs h)).
  { apply (updates_preserve
             (fun h => classes_distinct (classes h) /\ onUnpin h = true /\
                       unpin_first h)).
    - intros c h' (Hd' & Hr' & Hu').
      rewrite classes_transition.
      split; [done |]. split; [| by apply unpin_first_transition].
      exact (eq_trans (registered_transition OnUnpin c h') Hr').
    - intros y h' H. exact H.
    - split; [done |]. split; [done |]. left. by split. }
  destruct H as (_ & _ & [[_ H] | H]); rewrite H; discriminate.
Qed.

Lemma onPin_not_first_witness :
  first_pin_callback
    (calls (updates [reading 50 500 2000; reading 10 500 2000] fresh_widget))
  <> Some OnPin.
Proof.
  apply onPin_not_first.
  - apply (bool_decide_unpack _). by vm_compute.
  - reflexivity.
  - apply (bool_decide_unpack _). by vm_compute.
  - reflexivity.
Defined.

(** C10 as stated fails when only [onPin] is registered: from the element
    with neither class, scrolling down to 50 adds the unpinned class without
    any callback, and scrolling back to 10 fires [onPin], the first and only
    pin-axis callback. *)
Lemma onPin_first_without_onUnpin :
  ("headroom--pinned" ∉ elem (Headroom {[ "headroom" ]} onPin_only_options)) /\
  ("headroom--unpinned" ∉ elem (Headroom {[ "headroom" ]} onPin_only_options)) /\
  calls (Headroom {[ "headroom" ]} onPin_only_options) = [] /\
  calls (updates [reading 50 500 2000; reading 10 500 2000]
           (Headroom {[ "headroom" ]} onPin_only_options)) = [OnPin] /\
  first_pin_callback
    (calls (updates [reading 50 500 2000; reading 10 500 2000]
              (Headroom {[ "headroom" ]} onPin_only_options))) = Some OnPin.
Proof.
  split; [by apply (bool_decide_unpack _); vm_compute |].
  split; [by apply (bool_decide_unpack _); vm_compute |].
  repeat split.
Qed.

(** * Further properties of the code *)

(** ** Numbers *)

Lemma num_lt_irrefl (a : num) : (a <? a)%num = false.
Proof. destruct a; simpl; try reflexivity. apply Z.ltb_irrefl. Qed.

Lemma num_eq_sym (a b : num) : (a =? b)%num = (b =? a)%num.
Proof. destruct a, b; simpl; try reflexivity. apply Z.eqb_sym. Qed.

Lemma num_lt_le (a b : num) : (a <? b)%num = true -> (a <=? b)%num = true.
Proof. unfold num_le. by intros ->. Qed.

Lemma num_lt_not_ge (a b : num) : (a <? b)%num = true -> (a >=? b)%num = false.
Proof.
  unfold num_ge, num_le.
  destruct a, b; simpl; try discriminate; try reflexivity; lia.
Qed.

(** ** Ticks in sequence *)

Lemma lastKnownScrollY_transitions cs :
  forall h, lastKnownScrollY (transitions cs h) = lastKnownScrollY h.
Proof.
  induction cs as [| c cs IH]; intros h; simpl; [reflexivity |].
  rewrite IH.
  by pose proof (transition_settings c h) as [= -> _ _ _ _ _ _ _ _ _ _ _].
Qed.

Lemma lastKnownScrollY_update src h :
  lastKnownScrollY (update src h) =
    if isOutOfBounds src (scrollY src) then lastKnownScrollY h
    else scrollY src.
Proof. rewrite update_plan. by destruct (isOutOfBounds _ _). Qed.

Lemma updates_app l1 : forall l2 h,
  updates (l1 ++ l2) h = updates l2 (updates l1 h).
Proof. induction l1 as [| src l1 IH]; intros l2 h; simpl; [done | apply IH]. Qed.

Lemma update_skip src h : isOutOfBounds src (scrollY src) = true -> update src h = h.
Proof. intros Hb. unfold update. by rewrite Hb. Qed.

(** X1.  After any sequence of ticks [lastKnownScrollY] is the position of the
    last reading that was in bounds, frozen or not, and the old value if
    there was none. *)
Theorem updates_lastKnownScrollY (srcs : list ScrollSource) (h : widget) :
  lastKnownScrollY (updates srcs h) = last_in_bounds srcs (lastKnownScrollY h).
Proof.
  revert h. induction srcs as [| src srcs IH]; intros h; simpl; [reflexivity |].
  by rewrite IH, lastKnownScrollY_update.
Qed.

(** X2.  An out-of-bounds reading anywhere in a sequence of ticks is as if it
    had not been delivered. *)
Theorem updates_skip_out_of_bounds
    (l1 l2 : list ScrollSource) (src : ScrollSource) (h : widget) :
  isOutOfBounds src (scrollY src) = true ->
  updates (l1 ++ src :: l2) h = updates (l1 ++ l2) h.
Proof.
  intros Hb. rewrite !updates_app. simpl. by rewrite update_skip.
Qed.

Lemma updates_skip_out_of_bounds_witness :
  updates ([reading 60 500 2000] ++ reading (-5) 500 2000 :: [reading 10 500 2000])
    scrolled_widget
  = updates ([reading 60 500 2000] ++ [reading 10 500 2000]) scrolled_widget.
Proof. apply updates_skip_out_of_bounds. reflexivity. Defined.

(** The fields that only the constructor, [freeze] and [unfreeze] assign. *)
Lemma run_configuration_aux (os : list operation) (h : widget) :
  (tolerance (run os h), classes (run os h), offset (run os h),
   initialised (run os h), frozen (run os h),
   (onPin (run os h), onUnpin (run os h), onTop (run os h),
    onNotTop (run os h), onBottom (run os h), onNotBottom (run os h)))
  = (tolerance h, classes h, offset h, initialised h, frozen h,
     (onPin h, onUnpin h, onTop h, onNotTop h, onBottom h, onNotBottom h)).
Proof.
  apply (run_preserve (fun h' =>
    (tolerance h', classes h', offset h', initialised h', frozen h',
     (onPin h', onUnpin h', onTop h', onNotTop h', onBottom h',
      onNotBottom h'))
    = (tolerance h, classes h, offset h, initialised h, frozen h,
       (onPin h, onUnpin h, onTop h, onNotTop h, onBottom h, onNotBottom h))));
    [| | reflexivity].
  - intros c h' <-.
    by pose proof (transition_settings c h')
      as [= _ -> -> -> -> -> -> -> -> -> -> ->].
  - intros y h' H. exact H.
Qed.

(** X3.  No sequence of ticks and transitions changes the configuration or the
    frozen flag: tolerance, offset, class names, registered callbacks,
    [initialised] and [frozen] are as before. *)
Theorem run_keeps_configuration (os : list operation) (h : widget) :
  tolerance (run os h) = tolerance h /\
  classes (run os h) = classes h /\
  offset (run os h) = offset h /\
  initialised (run os h) = initialised h /\
  frozen (run os h) = frozen h /\
  forall c, registered c (run os h) = registered c h.
Proof.
  pose proof (run_configuration_aux os h)
    as [= Ht Hc Ho Hi Hf H1 H2 H3 H4 H5 H6].
  repeat (split; [assumption |]). intros c. destruct c; simpl; assumption.
Qed.

(** X4.  While the widget is frozen no sequence of ticks changes the class
    list or fires a callback, and the widget stays frozen. *)
Theorem updates_frozen (srcs : list ScrollSource) (h : widget) :
  frozen h = true ->
  elem (updates srcs h) = elem h /\
  calls (updates srcs h) = calls h /\
  frozen (updates srcs h) = true.
Proof.
  revert h. induction srcs as [| src srcs IH]; intros h Hf; simpl; [done |].
  assert (Hu : elem (update src h) = elem h /\ calls (update src h) = calls h
               /\ frozen (update src h) = true).
  { unfold update. rewrite Hf. by destruct (isOutOfBounds _ _). }
  destruct Hu as (He & Hc & Hf').
  destruct (IH _ Hf') as (-> & -> & ->). by rewrite He, Hc.
Qed.

Lemma updates_frozen_witness :
  elem (updates [reading 200 500 2000; reading 0 500 2000] (freeze scrolled_widget))
    = elem (freeze scrolled_widget) /\
  calls (updates [reading 200 500 2000; reading 0 500 2000] (freeze scrolled_widget))
    = calls (freeze scrolled_widget) /\
  frozen (updates [reading 200 500 2000; reading 0 500 2000] (freeze scrolled_widget))
    = true.
Proof. apply updates_frozen. reflexivity. Defined.

(** ** The decision of a tick *)

(** X5.  [shouldUnpin] and [shouldPin] can both hold only when the position is
    exactly the offset; [update] then calls [unpin()]. *)
Theorem shouldUnpin_shouldPin_overlap (h : widget) (y : num) (te : bool) :
  shouldUnpin h y te = true ->
  shouldPin h y te = true ->
  (y =? offset h)%num = true.
Proof.
  unfold shouldUnpin, shouldPin, num_gt, num_ge, num_le.
  destruct y, (lastKnownScrollY h), (offset h), te; simpl;
    try discriminate; try reflexivity; lia.
Qed.

Lemma shouldUnpin_shouldPin_overlap_witness :
  (Finite 100 =? offset offset_widget)%num = true.
Proof. apply (shouldUnpin_shouldPin_overlap offset_widget (Finite 100) true); reflexivity. Defined.

(** X6.  Above the offset line ([position < offset]) an in-bounds tick of a
    widget that is not frozen always calls [pin()], whatever the direction
    and the tolerance. *)
Theorem above_offset_calls_pin (src : ScrollSource) (h : widget) :
  (scrollY src <? offset h)%num = true ->
  isOutOfBounds src (scrollY src) = false ->
  frozen h = false ->
  pinAxisCall src h = CallsPin.
Proof.
  intros Hlt Hb Hf. unfold pinAxisCall, shouldUnpin, shouldPin.
  rewrite Hb, Hf, (num_lt_not_ge _ _ Hlt), (num_lt_le _ _ Hlt).
  by rewrite andb_false_r, orb_true_r.
Qed.

Lemma above_offset_calls_pin_witness :
  pinAxisCall (reading 99 500 2000) offset_widget = CallsPin.
Proof. apply above_offset_calls_pin; reflexivity. Defined.

(** X7.  Hysteresis.  Past the offset, a tick whose distance from
    [lastKnownScrollY] stays under the tolerance of its direction calls
    neither [pin()] nor [unpin()]. *)
Theorem within_tolerance_no_call (src : ScrollSource) (h : widget) :
  toleranceExceeded h (scrollY src) (scrollDirection h (scrollY src)) = false ->
  (scrollY src <=? offset h)%num = false ->
  pinAxisCall src h = CallsNeither.
Proof.
  intros Hte Ho. unfold pinAxisCall, shouldUnpin, shouldPin.
  rewrite Hte, Ho, !andb_false_r. simpl.
  by destruct (isOutOfBounds _ _), (frozen h).
Qed.

Lemma within_tolerance_no_call_witness :
  pinAxisCall (reading 55 500 2000)
    (set_tolerance (tolerance_of 10 10) scrolled_widget) = CallsNeither.
Proof. apply within_tolerance_no_call; reflexivity. Defined.

(** X8.  A negative tolerance is accepted and acts like no tolerance at all:
    between two finite positions it is always exceeded. *)
Theorem negative_tolerance_exceeded (h : widget) (y : num) (d : Direction) :
  (tolerance_at (tolerance h) d <? Finite 0)%num = true ->
  is_finite y = true ->
  is_finite (lastKnownScrollY h) = true ->
  toleranceExceeded h y d = true.
Proof.
  unfold toleranceExceeded, num_ge, num_le, num_sub.
  destruct (tolerance_at (tolerance h) d), y, (lastKnownScrollY h); simpl;
    try discriminate; try reflexivity; lia.
Qed.

Lemma negative_tolerance_exceeded_witness :
  toleranceExceeded (Headroom ∅ negative_options) (Finite 1) Down = true.
Proof. apply negative_tolerance_exceeded; reflexivity. Defined.

(** X9.  A tolerance that is NaN for the direction of the tick (a tolerance
    object without that field) is never exceeded: the tick never calls
    [unpin()], and calls [pin()] only at or above the offset line. *)
Theorem NaN_tolerance_never_unpins (src : ScrollSource) (h : widget) :
  tolerance_at (tolerance h) (scrollDirection h (scrollY src)) = NaN ->
  pinAxisCall src h =
    if isOutOfBounds src (scrollY src) || frozen h then CallsNeither
    else if (scrollY src <=? offset h)%num then CallsPin
    else CallsNeither.
Proof.
  intros Ht. unfold pinAxisCall, shouldUnpin, shouldPin, toleranceExceeded.
  rewrite Ht. change (_ >=? NaN)%num with false. rewrite !andb_false_r. simpl.
  by destruct (isOutOfBounds _ _), (frozen h).
Qed.

Lemma NaN_tolerance_never_unpins_witness :
  pinAxisCall (reading 60 500 2000)
    (set_tolerance {| down := NaN; up := Finite 0 |} scrolled_widget) =
    if isOutOfBounds (reading 60 500 2000) (Finite 60)
       || frozen (set_tolerance {| down := NaN; up := Finite 0 |} scrolled_widget)
    then CallsNeither
    else if (Finite 60 <=? offset scrolled_widget)%num then CallsPin
    else CallsNeither.
Proof.
  apply (NaN_tolerance_never_unpins (reading 60 500 2000)
           (set_tolerance {| down := NaN; up := Finite 0 |} scrolled_widget)).
  reflexivity.
Defined.

(** X10.  In bounds, the bottom test [>=] can only hold with equality: a tick
    calls [bottom()] exactly when [position + viewportHeight] equals
    [contentHeight], and [notBottom()] otherwise. *)
Theorem bottomStep_in_bounds (src : ScrollSource) (h : widget) :
  isOutOfBounds src (scrollY src) = false ->
  bottomStep src h =
    if (scrollY src + height src =? scrollHeight src)%num
    then bottom h else notBottom h.
Proof.
  intros Hb. unfold bottomStep.
  replace ((scrollY src + height src >=? scrollHeight src)%num)
    with ((scrollY src + height src =? scrollHeight src)%num); [done |].
  unfold isOutOfBounds in Hb. apply orb_false_iff in Hb as [_ Hb].
  unfold num_ge, num_le. unfold num_gt in Hb. rewrite Hb. simpl.
  apply num_eq_sym.
Qed.

Lemma bottomStep_in_bounds_witness :
  bottomStep end_reading scrolled_widget =
    if (scrollY end_reading + height end_reading =? scrollHeight end_reading)%num
    then bottom scrolled_widget else notBottom scrolled_widget.
Proof. apply bottomStep_in_bounds. reflexivity. Defined.

(** ** The steps of an active tick *)

Lemma topStep_transition src h :
  topStep src h = transition (top_choice src h) h.
Proof. unfold topStep, top_choice. by destruct (_ <=? _)%num. Qed.

Lemma bottomStep_transition src h :
  bottomStep src h = transition (bottom_choice src) h.
Proof. unfold bottomStep, bottom_choice. by destruct (_ >=? _)%num. Qed.

Lemma top_choice_axis src h : axis_of (top_choice src h) = TopAxis.
Proof. unfold top_choice. by destruct (_ <=? _)%num. Qed.

Lemma bottom_choice_axis src : axis_of (bottom_choice src) = BottomAxis.
Proof. unfold bottom_choice. by destruct (_ >=? _)%num. Qed.

Lemma classes_doPinCall pc h : classes (doPinCall pc h) = classes h.
Proof.
  destruct pc; simpl; [apply (classes_transition OnUnpin)
                      | apply (classes_transition OnPin) | done].
Qed.

Lemma elem_doPinCall_other (x : string) pc h :
  x <> cls_pinned (classes h) -> x <> cls_unpinned (classes h) ->
  x ∈ elem (doPinCall pc h) <-> x ∈ elem h.
Proof.
  intros H1 H2.
  destruct pc; [apply (elem_transition_other x OnUnpin)
               | apply (elem_transition_other x OnPin) | done]; done.
Qed.

(** What a transition establishes: its class is on the element, and the
    opposite class is off unless the element carried both and the guard
    skipped the transition.  [pin()] is the exception: it acts only on an
    element that carries the unpinned class. *)
Lemma transition_establishes (c : callback) (h : widget) :
  c <> OnPin ->
  pairs_distinct (classes h) ->
  added c (classes h) ∈ elem (transition c h) /\
  (carries_both (axis_of c) h = false \/ c = OnUnpin ->
   removed c (classes h) ∉ elem (transition c h)).
Proof.
  intros Hc (Hp & Ht & Hb). rewrite elem_transition.
  unfold carries_both, contains.
  destruct c; try done; unfold applies, new_elem, contains; simpl;
    repeat case_bool_decide; simpl;
    (split; [set_solver | intros [? | ?]; try discriminate; set_solver]).
Qed.

Lemma pin_result (h : widget) :
  cls_pinned (classes h) <> cls_unpinned (classes h) ->
  (cls_unpinned (classes h) ∉ elem (pin h)) /\
  (cls_unpinned (classes h) ∈ elem h -> cls_pinned (classes h) ∈ elem (pin h)) /\
  (cls_unpinned (classes h) ∉ elem h -> pin h = h).
Proof.
  intros Hp. change (pin h) with (transition OnPin h).
  rewrite elem_transition, transition_unfold. unfold applies, new_elem, contains.
  case_bool_decide; simpl; set_solver.
Qed.

(** The state before the pin step of an active tick. *)
Lemma before_pin_step (src : ScrollSource) (h : widget) :
  classes_distinct (classes h) ->
  settings (bottomStep src (topStep src h)) = settings h /\
  (forall x, x = cls_pinned (classes h) \/ x = cls_unpinned (classes h) ->
     x ∈ elem (bottomStep src (topStep src h)) <-> x ∈ elem h) /\
  exists pre,
    calls (bottomStep src (topStep src h)) = calls h ++ pre /\
    forall c, c ∈ pre -> is_pin_axis c = false.
Proof.
  intros Hd. pose proof (classes_distinct_neq _ Hd) as Hne.
  split; [rewrite bottomStep_settings; apply topStep_settings |].
  assert (Hc1 : classes (topStep src h) = classes h)
    by (rewrite topStep_transition; apply classes_transition).
  split.
  - intros x Hx. rewrite bottomStep_transition, topStep_transition.
    rewrite elem_transition_other, elem_transition_other; [done | | | |];
      rewrite ?classes_transition, ?bottom_choice_axis, ?top_choice_axis;
      simpl; naive_solver.
  - rewrite bottomStep_transition, topStep_transition.
    rewrite !calls_prefix_transition, <- app_assoc, !fired_by_transition.
    eexists. split; [reflexivity |].
    intros c. rewrite elem_of_app.
    unfold top_choice, bottom_choice.
    destruct (_ <=? _)%num, (_ >=? _)%num;
      repeat match goal with
             | |- context [if ?b then _ else _] => destruct b
             end; set_solver.
Qed.

Lemma calls_prefix_doPinCall pc h :
  calls (doPinCall pc h) = calls h ++ fired_by (doPinCall pc) h.
Proof.
  destruct pc; simpl.
  - apply (calls_prefix_transition OnUnpin).
  - apply (calls_prefix_transition OnPin).
  - unfold fired_by. by rewrite drop_all, app_nil_r.
Qed.

(** An active tick: the state before the pin step, and what the tick fires
    in terms of it. *)
Lemma update_pin_phase (src : ScrollSource) (h : widget) :
  classes_distinct (classes h) ->
  isOutOfBounds src (scrollY src) = false ->
  frozen h = false ->
  exists h2 pre,
    settings h2 = settings h /\
    (forall x, x = cls_pinned (classes h) \/ x = cls_unpinned (classes h) ->
       x ∈ elem h2 <-> x ∈ elem h) /\
    (forall c, c ∈ pre -> is_pin_axis c = false) /\
    update src h =
      set_lastKnownScrollY (scrollY src) (doPinCall (pinAxisCall src h) h2) /\
    fired_by (update src) h = pre ++ fired_by (doPinCall (pinAxisCall src h)) h2.
Proof.
  intros Hd Hb Hf.
  destruct (before_pin_step src h Hd) as (Hs & Hel & pre & Hpre & Hax).
  exists (bottomStep src (topStep src h)), pre.
  split; [exact Hs |]. split; [exact Hel |]. split; [exact Hax |].
  split; [by apply update_steps |].
  apply fired_by_app. rewrite update_steps by assumption. simpl.
  by rewrite calls_prefix_doPinCall, Hpre, <- app_assoc.
Qed.

(** X11.  A tick that calls [unpin()] leaves the element unpinned: it carries
    the unpinned class and not the pinned one.  [onUnpin] fires exactly when
    it is registered and the element was pinned or not yet unpinned; [onPin]
    does not fire. *)
Theorem update_unpin_result (src : ScrollSource) (h : widget) :
  classes_distinct (classes h) ->
  pinAxisCall src h = CallsUnpin ->
  (cls_unpinned (classes h) ∈ elem (update src h)) /\
  (cls_pinned (classes h) ∉ elem (update src h)) /\
  (OnUnpin ∈ fired_by (update src) h <->
     onUnpin h = true /\
     (cls_pinned (classes h) ∈ elem h \/ cls_unpinned (classes h) ∉ elem h)) /\
  OnPin ∉ fired_by (update src) h.
Proof.
  intros Hd Hpc.
  assert (Hb : isOutOfBounds src (scrollY src) = false).
  { unfold pinAxisCall in Hpc. by destruct (isOutOfBounds _ _). }
  assert (Hf : frozen h = false).
  { unfold pinAxisCall in Hpc. rewrite Hb in Hpc. by destruct (frozen h). }
  destruct (update_pin_phase src h Hd Hb Hf)
    as (h2 & pre & Hs & Hel & Hax & Hu & Hfire).
  rewrite Hfire, Hu, Hpc. simpl.
  assert (Hc2 : classes h2 = classes h) by (by injection Hs).
  assert (Hr2 : onUnpin h2 = onUnpin h) by (by injection Hs).
  pose proof (classes_distinct_pairs _ Hd) as Hp. rewrite <- Hc2 in Hp.
  destruct (transition_establishes OnUnpin h2 ltac:(done) Hp) as [Hin Hout].
  simpl in Hin, Hout. rewrite Hc2 in Hin, Hout.
  split; [exact Hin |]. split; [apply Hout; by right |].
  assert (Hfu : fired_by (doPinCall CallsUnpin) h2 =
                if (bool_decide (cls_pinned (classes h) ∈ elem h)
                    || negb (bool_decide (cls_unpinned (classes h) ∈ elem h)))
                   && onUnpin h
                then [OnUnpin] else []).
  { change (doPinCall CallsUnpin) with (transition OnUnpin).
    rewrite fired_by_transition. simpl. unfold contains.
    rewrite Hc2, Hr2.
    rewrite (bool_decide_ext _ _ (Hel _ (or_introl eq_refl))).
    by rewrite (bool_decide_ext _ _ (Hel _ (or_intror eq_refl))). }
  rewrite Hfu.
  split.
  - rewrite elem_of_app. split.
    + intros [H | H]; [by apply Hax in H |].
      destruct (onUnpin h); [| rewrite andb_false_r in H; by apply elem_of_nil in H].
      split; [done |]. rewrite andb_true_r in H.
      repeat case_bool_decide; simpl in H; try (by apply elem_of_nil in H); auto.
    + intros [-> H]. right. rewrite andb_true_r.
      repeat case_bool_decide; simpl; set_solver.
  - rewrite elem_of_app. intros [H | H]; [by apply Hax in H |].
    destruct (_ && _); set_solver.
Qed.

Lemma update_unpin_result_witness :
  (cls_unpinned (classes pinned_widget)
     ∈ elem (update (reading 60 500 2000) pinned_widget)) /\
  (cls_pinned (classes pinned_widget)
     ∉ elem (update (reading 60 500 2000) pinned_widget)) /\
  (OnUnpin ∈ fired_by (update (reading 60 500 2000)) pinned_widget <->
     onUnpin pinned_widget = true /\
     (cls_pinned (classes pinned_widget) ∈ elem pinned_widget \/
      cls_unpinned (classes pinned_widget) ∉ elem pinned_widget)) /\
  OnPin ∉ fired_by (update (reading 60 500 2000)) pinned_widget.
Proof.
  apply update_unpin_result.
  - apply (bool_decide_unpack _). by vm_compute.
  - reflexivity.
Defined.

(** X12.  A tick that calls [pin()] pins only an element that carries the
    unpinned class: then the pinned class replaces it and [onPin] fires if
    registered.  On an element without the unpinned class (the state the
    constructor leaves) the call does nothing and [onPin] does not fire.
    [onUnpin] never fires in such a tick. *)
Theorem update_pin_result (src : ScrollSource) (h : widget) :
  classes_distinct (classes h) ->
  pinAxisCall src h = CallsPin ->
  ((cls_unpinned (classes h) ∈ elem h) ->
     (cls_pinned (classes h) ∈ elem (update src h)) /\
     (cls_unpinned (classes h) ∉ elem (update src h)) /\
     (OnPin ∈ fired_by (update src) h <-> onPin h = true)) /\
  ((cls_unpinned (classes h) ∉ elem h) ->
     (cls_unpinned (classes h) ∉ elem (update src h)) /\
     (cls_pinned (classes h) ∈ elem (update src h)
      <-> cls_pinned (classes h) ∈ elem h) /\
     OnPin ∉ fired_by (update src) h) /\
  OnUnpin ∉ fired_by (update src) h.
Proof.
  intros Hd Hpc.
  assert (Hb : isOutOfBounds src (scrollY src) = false).
  { unfold pinAxisCall in Hpc. by destruct (isOutOfBounds _ _). }
  assert (Hf : frozen h = false).
  { unfold pinAxisCall in Hpc. rewrite Hb in Hpc. by destruct (frozen h). }
  destruct (update_pin_phase src h Hd Hb Hf)
    as (h2 & pre & Hs & Hel & Hax & Hu & Hfire).
  rewrite Hfire, Hu, Hpc. simpl.
  assert (Hc2 : classes h2 = classes h) by (by injection Hs).
  assert (Hr2 : onPin h2 = onPin h) by (by injection Hs).
  pose proof (classes_distinct_pairs _ Hd) as (Hp & _ & _).
  rewrite <- Hc2 in Hp.
  destruct (pin_result h2 Hp) as (Hnu & Hpin & Hskip).
  rewrite Hc2 in Hnu, Hpin, Hskip.
  pose proof (Hel _ (or_introl eq_refl)) as Hel_p.
  pose proof (Hel _ (or_intror eq_refl)) as Hel_u.
  assert (Hfp : fired_by (doPinCall CallsPin) h2 =
                if bool_decide (cls_unpinned (classes h) ∈ elem h) && onPin h
                then [OnPin] else []).
  { change (doPinCall CallsPin) with (transition OnPin).
    rewrite fired_by_transition. simpl.
    unfold contains. by rewrite Hc2, Hr2, (bool_decide_ext _ _ Hel_u). }
  rewrite Hfp.
  split; [| split].
  - intros Hin. split; [apply Hpin; by apply Hel_u |]. split; [exact Hnu |].
    rewrite bool_decide_eq_true_2 by done. simpl. rewrite elem_of_app.
    split.
    + intros [H | H]; [by apply Hax in H |].
      destruct (onPin h); [done | by apply elem_of_nil in H].
    + intros ->. right. by left.
  - intros Hout. split; [exact Hnu |].
    rewrite Hskip by (by rewrite Hel_u). split; [exact Hel_p |].
    rewrite bool_decide_eq_false_2 by done. simpl. rewrite app_nil_r.
    intros H. by apply Hax in H.
  - rewrite elem_of_app. intros [H | H]; [by apply Hax in H |].
    destruct (_ && _); set_solver.
Qed.

Lemma update_pin_result_witness :
  ((cls_unpinned (classes scrolled_widget) ∈ elem scrolled_widget) ->
     (cls_pinned (classes scrolled_widget)
        ∈ elem (update (reading 10 500 2000) scrolled_widget)) /\
     (cls_unpinned (classes scrolled_widget)
        ∉ elem (update (reading 10 500 2000) scrolled_widget)) /\
     (OnPin ∈ fired_by (update (reading 10 500 2000)) scrolled_widget
      <-> onPin scrolled_widget = true)) /\
  ((cls_unpinned (classes scrolled_widget) ∉ elem scrolled_widget) ->
     (cls_unpinned (classes scrolled_widget)
        ∉ elem (update (reading 10 500 2000) scrolled_widget)) /\
     (cls_pinned (classes scrolled_widget)
        ∈ elem (update (reading 10 500 2000) scrolled_widget)
      <-> cls_pinned (classes scrolled_widget) ∈ elem scrolled_widget) /\
     OnPin ∉ fired_by (update (reading 10 500 2000)) scrolled_widget) /\
  OnUnpin ∉ fired_by (update (reading 10 500 2000)) scrolled_widget.
Proof.
  apply update_pin_result.
  - apply (bool_decide_unpack _). by vm_compute.
  - reflexivity.
Defined.

(** X13.  The callbacks of one tick come in the order top axis, bottom axis,
    pin axis, at most one per axis (so at most three). *)
Theorem fired_by_update_ordered (src : ScrollSource) (h : widget) :
  StronglySorted lt (axis_rank <$> fired_by (update src) h).
Proof.
  rewrite fired_by_update. unfold tick_plan.
  destruct (isOutOfBounds src (scrollY src) || frozen h).
  - unfold fired_by. simpl. rewrite drop_all. constructor.
  - cbn [app]. rewrite !fired_by_cons, !fired_by_transition.
    set (h2 := transition _ (transition _ h)).
    assert (H3 : fired_by (transitions
                   match pinAxisCall src h with
                   | CallsUnpin => [OnUnpin]
                   | CallsPin => [OnPin]
                   | CallsNeither => []
                   end) h2 = []
                 \/ fired_by (transitions
                   match pinAxisCall src h with
                   | CallsUnpin => [OnUnpin]
                   | CallsPin => [OnPin]
                   | CallsNeither => []
                   end) h2 = [OnUnpin]
                 \/ fired_by (transitions
                   match pinAxisCall src h with
                   | CallsUnpin => [OnUnpin]
                   | CallsPin => [OnPin]
                   | CallsNeither => []
                   end) h2 = [OnPin]).
    { destruct (pinAxisCall src h);
        rewrite ?fired_by_cons, ?fired_by_transition;
        unfold fired_by; simpl; rewrite ?drop_all;
        repeat match goal with
               | |- context [if ?b then _ else _] => destruct b
               end; simpl; auto. }
    destruct H3 as [-> | [-> | ->]];
      destruct (_ <=? _)%num, (_ >=? _)%num;
      repeat match goal with
             | |- context [if ?b then _ else _] => destruct b
             end; simpl;
      repeat (constructor; try (unfold axis_rank; simpl; lia)).
Qed.

(** X14.  After an in-bounds tick of a widget that is not frozen the top and
    bottom classes say where the reading is: the element carries the top
    class exactly when [position <= offset] and the notTop class otherwise,
    the bottom class exactly when [position + viewportHeight >=
    contentHeight] and the notBottom class otherwise.  The element did not
    carry both classes of a pair before. *)
Theorem update_top_bottom_classes (src : ScrollSource) (h : widget) :
  classes_distinct (classes h) ->
  isOutOfBounds src (scrollY src) = false ->
  frozen h = false ->
  carries_both TopAxis h = false ->
  carries_both BottomAxis h = false ->
  contains (cls_top (classes h)) (update src h)
    = (scrollY src <=? offset h)%num /\
  contains (cls_notTop (classes h)) (update src h)
    = negb (scrollY src <=? offset h)%num /\
  contains (cls_bottom (classes h)) (update src h)
    = (scrollY src + height src >=? scrollHeight src)%num /\
  contains (cls_notBottom (classes h)) (update src h)
    = negb (scrollY src + height src >=? scrollHeight src)%num.
Proof.
  intros Hd Hb Hf Ht Hbo.
  pose proof (classes_distinct_neq _ Hd) as Hne.
  pose proof (classes_distinct_pairs _ Hd) as Hp.
  rewrite update_steps by assumption. unfold contains. simpl.
  rewrite bottomStep_transition, topStep_transition.
  set (c1 := top_choice src h). set (h1 := transition c1 h).
  set (c2 := bottom_choice src). set (h2 := transition c2 h1).
  assert (Hc1 : classes h1 = classes h) by apply classes_transition.
  assert (Hc2 : classes h2 = classes h)
    by (unfold h2; by rewrite classes_transition).
  assert (Hbo1 : carries_both BottomAxis h1 = false)
    by (by apply carries_both_transition).
  assert (Htop : forall x, x = cls_top (classes h) \/ x = cls_notTop (classes h) ->
                   x ∈ elem (doPinCall (pinAxisCall src h) h2) <-> x ∈ elem h1).
  { intros x Hx. rewrite elem_doPinCall_other by (rewrite Hc2; naive_solver).
    unfold h2. apply elem_transition_other;
      unfold c2; rewrite bottom_choice_axis, Hc1; simpl; naive_solver. }
  assert (Hbot : forall x, x = cls_bottom (classes h) \/ x = cls_notBottom (classes h) ->
                   x ∈ elem (doPinCall (pinAxisCall src h) h2) <-> x ∈ elem h2).
  { intros x Hx. apply elem_doPinCall_other; rewrite Hc2; naive_solver. }
  rewrite (bool_decide_ext _ _ (Htop _ (or_introl eq_refl))).
  rewrite (bool_decide_ext _ _ (Htop _ (or_intror eq_refl))).
  rewrite (bool_decide_ext _ _ (Hbot _ (or_introl eq_refl))).
  rewrite (bool_decide_ext _ _ (Hbot _ (or_intror eq_refl))).
  assert (E1 : c1 <> OnPin) by (unfold c1, top_choice; by destruct (_ <=? _)%num).
  assert (E2 : c2 <> OnPin) by (unfold c2, bottom_choice; by destruct (_ >=? _)%num).
  destruct (transition_establishes c1 h E1 Hp) as [Ha1 Hr1].
  rewrite <- Hc1 in Hp.
  destruct (transition_establishes c2 h1 E2 Hp) as [Ha2 Hr2].
  fold h1 in Ha1, Hr1. fold h2 in Ha2, Hr2. rewrite Hc1 in Ha2, Hr2.
  unfold c1 in Ha1, Hr1. rewrite top_choice_axis in Hr1.
  unfold c2 in Ha2, Hr2. rewrite bottom_choice_axis in Hr2.
  specialize (Hr1 (or_introl Ht)). specialize (Hr2 (or_introl Hbo1)).
  unfold top_choice in Ha1, Hr1. unfold bottom_choice in Ha2, Hr2.
  destruct (_ <=? _)%num, (_ >=? _)%num; simpl in *;
    repeat split;
    first [by apply bool_decide_eq_true_2 | by apply bool_decide_eq_false_2].
Qed.

Lemma update_top_bottom_classes_witness :
  contains (cls_top (classes scrolled_widget))
    (update (reading 0 500 2000) scrolled_widget)
    = (Finite 0 <=? offset scrolled_widget)%num /\
  contains (cls_notTop (classes scrolled_widget))
    (update (reading 0 500 2000) scrolled_widget)
    = negb (Finite 0 <=? offset scrolled_widget)%num /\
  contains (cls_bottom (classes scrolled_widget))
    (update (reading 0 500 2000) scrolled_widget)
    = (Finite 0 + Finite 500 >=? Finite 2000)%num /\
  contains (cls_notBottom (classes scrolled_widget))
    (update (reading 0 500 2000) scrolled_widget)
    = negb (Finite 0 + Finite 500 >=? Finite 2000)%num.
Proof.
  apply (update_top_bottom_classes (reading 0 500 2000) scrolled_widget).
  - apply (bool_decide_unpack _). by vm_compute.
  - reflexivity.
  - reflexivity.
  - by vm_compute.
  - by vm_compute.
Defined.

(** X15.  [unpin()] always leaves the element unpinned (unpinned class on,
    pinned class off), so a [pin()] right after it always pins and fires
    [onPin]; and an [unpin()] right after a [pin()] always fires [onUnpin],
    whether the [pin()] acted or not. *)
Theorem pin_unpin_alternate (h : widget) :
  cls_pinned (classes h) <> cls_unpinned (classes h) ->
  (cls_unpinned (classes h) ∈ elem (unpin h)) /\
  (cls_pinned (classes h) ∉ elem (unpin h)) /\
  (cls_pinned (classes h) ∈ elem (pin (unpin h))) /\
  (cls_unpinned (classes h) ∉ elem (pin (unpin h))) /\
  fired_by pin (unpin h) = (if onPin h then [OnPin] else []) /\
  fired_by unpin (pin h) = (if onUnpin h then [OnUnpin] else []).
Proof.
  intros Hp.
  assert (Hc : classes (unpin h) = classes h)
    by apply (classes_transition OnUnpin).
  assert (Hin : cls_unpinned (classes h) ∈ elem (unpin h)).
  { change (unpin h) with (transition OnUnpin h). rewrite elem_transition.
    unfold applies, new_elem, contains.
    repeat case_bool_decide; simpl in *; set_solver. }
  assert (Hout : cls_pinned (classes h) ∉ elem (unpin h)).
  { change (unpin h) with (transition OnUnpin h). rewrite elem_transition.
    unfold applies, new_elem, contains.
    repeat case_bool_decide; simpl in *; set_solver. }
  destruct (pin_result (unpin h)) as (Hnu & Hpin & _); [by rewrite Hc |].
  rewrite Hc in Hnu, Hpin.
  destruct (pin_result h Hp) as (Hnu' & _ & _).
  split; [exact Hin |]. split; [exact Hout |].
  split; [by apply Hpin |]. split; [exact Hnu |].
  split.
  - change pin with (transition OnPin). rewrite fired_by_transition.
    rewrite (registered_transition OnPin OnUnpin h
             : registered OnPin (unpin h) = registered OnPin h).
    unfold applies, contains. rewrite Hc.
    rewrite bool_decide_eq_true_2 by done. reflexivity.
  - change unpin with (transition OnUnpin). rewrite fired_by_transition.
    rewrite (registered_transition OnUnpin OnPin h
             : registered OnUnpin (pin h) = registered OnUnpin h).
    unfold applies, contains.
    rewrite (classes_transition OnPin h : classes (pin h) = classes h).
    rewrite (bool_decide_eq_false_2 _ Hnu'), orb_true_r. reflexivity.
Qed.

Lemma pin_unpin_alternate_witness :
  (cls_unpinned (classes fresh_widget) ∈ elem (unpin fresh_widget)) /\
  (cls_pinned (classes fresh_widget) ∉ elem (unpin fresh_widget)) /\
  (cls_pinned (classes fresh_widget) ∈ elem (pin (unpin fresh_widget))) /\
  (cls_unpinned (classes fresh_widget) ∉ elem (pin (unpin fresh_widget))) /\
  fired_by pin (unpin fresh_widget)
    = (if onPin fresh_widget then [OnPin] else []) /\
  fired_by unpin (pin fresh_widget)
    = (if onUnpin fresh_widget then [OnUnpin] else []).
Proof. apply pin_unpin_alternate. apply (bool_decide_unpack _). by vm_compute. Defined.

(** ** A reading delivered twice *)

Lemma applies_toggle_false (c : callback) (h : widget) :
  axis_of c <> PinAxis ->
  added c (classes h) ∈ elem h ->
  applies c h = false.
Proof.
  intros Hc Hin. destruct c; try done; simpl in *; unfold contains;
    by rewrite bool_decide_eq_true_2.
Qed.

(** The classes the top and the bottom step put on are on the element at the
    end of an active tick. *)
Lemma update_added_classes (src : ScrollSource) (h : widget) :
  classes_distinct (classes h) ->
  isOutOfBounds src (scrollY src) = false ->
  frozen h = false ->
  added (top_choice src h) (classes h) ∈ elem (update src h) /\
  added (bottom_choice src) (classes h) ∈ elem (update src h).
Proof.
  intros Hd Hb Hf.
  pose proof (classes_distinct_neq _ Hd) as Hne.
  pose proof (classes_distinct_pairs _ Hd) as Hp.
  rewrite update_steps by assumption. simpl.
  rewrite bottomStep_transition, topStep_transition.
  set (c1 := top_choice src h). set (h1 := transition c1 h).
  set (c2 := bottom_choice src). set (h2 := transition c2 h1).
  assert (Hc1 : classes h1 = classes h) by apply classes_transition.
  assert (Hc2 : classes h2 = classes h)
    by (unfold h2; by rewrite classes_transition).
  assert (E1 : c1 <> OnPin) by (unfold c1, top_choice; by destruct (_ <=? _)%num).
  assert (E2 : c2 <> OnPin) by (unfold c2, bottom_choice; by destruct (_ >=? _)%num).
  destruct (transition_establishes c1 h E1 Hp) as [Ha1 _].
  rewrite <- Hc1 in Hp.
  destruct (transition_establishes c2 h1 E2 Hp) as [Ha2 _].
  fold h1 in Ha1. fold h2 in Ha2. rewrite Hc1 in Ha2.
  split.
  - rewrite elem_doPinCall_other; rewrite ?Hc2;
      [| unfold c1, top_choice; destruct (_ <=? _)%num; simpl; naive_solver
       | unfold c1, top_choice; destruct (_ <=? _)%num; simpl; naive_solver].
    unfold h2. rewrite elem_transition_other; [exact Ha1 | |];
      unfold c2; rewrite bottom_choice_axis, Hc1;
      unfold c1, top_choice; destruct (_ <=? _)%num; simpl; naive_solver.
  - rewrite elem_doPinCall_other; rewrite ?Hc2; [exact Ha2 | |];
      unfold c2, bottom_choice; destruct (_ >=? _)%num; simpl; naive_solver.
Qed.

Lemma doPinCall_settings pc h : settings (doPinCall pc h) = settings h.
Proof.
  destruct pc; [apply (transition_settings OnUnpin)
               | apply (transition_settings OnPin) | done].
Qed.

(** The tick that follows a tick at the same position. *)
Lemma pinAxisCall_same_position (src : ScrollSource) (h : widget) :
  lastKnownScrollY h = scrollY src ->
  pinAxisCall src h =
    if isOutOfBounds src (scrollY src) || frozen h then CallsNeither
    else if (scrollY src <=? offset h)%num then CallsPin
    else CallsNeither.
Proof.
  intros Hl. unfold pinAxisCall, shouldUnpin, shouldPin, num_gt.
  rewrite Hl, num_lt_irrefl. simpl.
  by destruct (isOutOfBounds _ _), (frozen h).
Qed.

(** X16.  Delivering the same reading twice changes nothing the second time,
    unless the position is exactly the offset (where a tick that unpinned is
    followed by one that pins). *)
Theorem update_repeat (src : ScrollSource) (h : widget) :
  classes_distinct (classes h) ->
  (scrollY src =? offset h)%num = false ->
  update src (update src h) = update src h.
Proof.
  intros Hd Hne.
  destruct (isOutOfBounds src (scrollY src)) eqn:Hb.
  { by rewrite !(update_skip src h Hb). }
  destruct (frozen h) eqn:Hf.
  { assert (E : update src h = set_lastKnownScrollY (scrollY src) h)
      by (unfold update; by rewrite Hb, Hf).
    rewrite E. unfold update. simpl. by rewrite Hb, Hf. }
  destruct (update_added_classes src h Hd Hb Hf) as [Ha1 Ha2].
  assert (Hs : settings (doPinCall (pinAxisCall src h)
                           (bottomStep src (topStep src h))) = settings h).
  { rewrite doPinCall_settings, bottomStep_settings. apply topStep_settings. }
  assert (Hc' : classes (update src h) = classes h)
    by (rewrite update_steps by assumption; by injection Hs).
  assert (Ho' : offset (update src h) = offset h)
    by (rewrite update_steps by assumption; by injection Hs).
  assert (Hf' : frozen (update src h) = false)
    by (rewrite update_steps by assumption; injection Hs; simpl; congruence).
  assert (Hl' : lastKnownScrollY (update src h) = scrollY src)
    by (by rewrite update_steps by assumption).
  assert (Htop : topStep src (update src h) = update src h).
  { rewrite topStep_transition. apply transition_skip.
    assert (E : top_choice src (update src h) = top_choice src h)
      by (unfold top_choice; by rewrite Ho').
    rewrite E. apply applies_toggle_false;
      [by rewrite top_choice_axis | by rewrite Hc']. }
  assert (Hbot : bottomStep src (update src h) = update src h).
  { rewrite bottomStep_transition. apply transition_skip.
    apply applies_toggle_false;
      [by rewrite bottom_choice_axis | by rewrite Hc']. }
  rewrite (update_steps src (update src h) Hb Hf'), Htop, Hbot.
  rewrite (pinAxisCall_same_position src (update src h) Hl'), Hb, Hf', Ho'.
  simpl.
  assert (Hfinal : set_lastKnownScrollY (scrollY src) (update src h)
                   = update src h).
  { rewrite (update_steps src h Hb Hf). reflexivity. }
  destruct (scrollY src <=? offset h)%num eqn:Hle; simpl; [| exact Hfinal].
  assert (Hlt : (scrollY src <? offset h)%num = true).
  { unfold num_le in Hle. rewrite Hne, orb_false_r in Hle. exact Hle. }
  assert (Hpc : pinAxisCall src h = CallsPin).
  { unfold pinAxisCall, shouldUnpin, shouldPin.
    rewrite Hb, Hf, (num_lt_not_ge _ _ Hlt), Hle.
    by rewrite andb_false_r, orb_true_r. }
  assert (Hnu : cls_unpinned (classes h) ∉ elem (update src h)).
  { rewrite (update_steps src h Hb Hf), Hpc. simpl.
    pose proof (classes_distinct_pairs _ Hd) as (Hp & _ & _).
    assert (Hc2 : classes (bottomStep src (topStep src h)) = classes h).
    { pose proof (bottomStep_settings src (topStep src h)) as H1.
      pose proof (topStep_settings src h) as H2.
      rewrite H2 in H1. by injection H1. }
    rewrite <- Hc2 in Hp. destruct (pin_result _ Hp) as (H & _ & _).
    by rewrite Hc2 in H. }
  destruct (pin_result (update src h)) as (_ & _ & Hskip).
  { rewrite Hc'. by destruct (classes_distinct_pairs _ Hd) as (? & _ & _). }
  rewrite Hskip by (by rewrite Hc'). exact Hfinal.
Qed.

Lemma update_repeat_witness :
  update (reading 60 500 2000) (update (reading 60 500 2000) pinned_widget)
  = update (reading 60 500 2000) pinned_widget.
Proof.
  apply update_repeat.
  - apply (bool_decide_unpack _). by vm_compute.
  - reflexivity.
Defined.

(** At the offset itself the second tick undoes the first: scrolling down to
    position 100 with offset 100 unpins, the same reading again pins. *)
Example update_repeat_at_offset :
  fired_by (update (reading 100 500 2000))
    (set_elem {[ "headroom"; "headroom--pinned"; "headroom--top";
                  "headroom--not-bottom" ]} offset_widget) = [OnUnpin] /\
  fired_by (update (reading 100 500 2000))
    (update (reading 100 500 2000)
       (set_elem {[ "headroom"; "headroom--pinned"; "headroom--top";
                  "headroom--not-bottom" ]} offset_widget)) = [OnPin].
Proof. split; reflexivity. Qed.

(** ** Freezing *)

Lemma widget_eq (a b : widget) :
  settings a = settings b -> elem a = elem b -> calls a = calls b -> a = b.
Proof.
  destruct a, b. unfold settings. simpl.
  intros [= -> -> -> -> -> -> -> -> -> -> -> ->] -> ->. reflexivity.
Qed.

(** X17.  [unfreeze] undoes [freeze]: on a widget that is not frozen and whose
    element does not carry the frozen class, freezing and unfreezing gives
    the widget back; and freezing twice is freezing once. *)
Theorem unfreeze_freeze (h : widget) :
  cls_frozen (classes h) ∉ elem h ->
  frozen h = false ->
  unfreeze (freeze h) = h /\ freeze (freeze h) = freeze h.
Proof.
  intros Hn Hf. split.
  - apply widget_eq; unfold settings; simpl; [by rewrite Hf | | done].
    set_solver.
  - apply widget_eq; unfold settings; simpl; [done | | done]. set_solver.
Qed.

Lemma unfreeze_freeze_witness :
  unfreeze (freeze scrolled_widget) = scrolled_widget /\
  freeze (freeze scrolled_widget) = freeze scrolled_widget.
Proof.
  apply unfreeze_freeze.
  - apply (bool_decide_unpack _). by vm_compute.
  - reflexivity.
Defined.

(** ** Attaching and destroying *)

Lemma elem_foldl_remove (l : list string) :
  forall h x,
    x ∈ elem (foldl (fun h c => classList_remove c h) h l)
    <-> x ∈ elem h /\ x ∉ l.
Proof.
  induction l as [| c l IH]; intros h x; simpl.
  - split; [intros H; split; [done | by intros ?%elem_of_nil] | by intros [? _]].
  - rewrite IH. unfold classList_remove. simpl.
    rewrite not_elem_of_cons. set_solver.
Qed.

Lemma fst_destroy (f : Features) (h : widget) :
  fst (destroy f h) =
    foldl (fun h c => classList_remove c h) (set_initialised false h)
      (class_names (classes h)).
Proof. reflexivity. Qed.

Lemma destroy_fields (f : Features) (h : widget) :
  (forall x, x ∈ elem (fst (destroy f h))
             <-> x ∈ elem h /\ x ∉ class_names (classes h)) /\
  frozen (fst (destroy f h)) = frozen h.
Proof.
  rewrite fst_destroy.
  split; [intros x; apply (elem_foldl_remove _ (set_initialised false h)) |].
  reflexivity.
Qed.

(** X18.  [destroy] takes every class of [classes] off the element and nothing
    else, and marks the widget as not initialised; it fires no callback and
    leaves [lastKnownScrollY] and the [frozen] flag as they are. *)
Theorem destroy_result (f : Features) (h : widget) :
  (forall x, x ∈ elem (fst (destroy f h))
             <-> x ∈ elem h /\ x ∉ class_names (classes h)) /\
  initialised (fst (destroy f h)) = false /\
  frozen (fst (destroy f h)) = frozen h /\
  lastKnownScrollY (fst (destroy f h)) = lastKnownScrollY h /\
  calls (fst (destroy f h)) = calls h.
Proof.
  rewrite fst_destroy.
  split; [intros x; apply (elem_foldl_remove _ (set_initialised false h)) |].
  repeat split.
Qed.

Lemma frozen_tick_fields src h :
  frozen h = true ->
  elem (update src h) = elem h /\ calls (update src h) = calls h /\
  frozen (update src h) = true.
Proof. intros Hf. unfold update. rewrite Hf. by destruct (isOutOfBounds _ _). Qed.

Lemma frozen_ticks_fields srcs : forall h,
  frozen h = true ->
  elem (updates srcs h) = elem h /\ calls (updates srcs h) = calls h.
Proof.
  induction srcs as [| src srcs IH]; intros h Hf; simpl; [done |].
  destruct (frozen_tick_fields src h Hf) as (He & Hc & Hf').
  destruct (IH _ Hf') as [-> ->]. by rewrite He, Hc.
Qed.

(** X19.  [destroy] does not unfreeze.  A widget destroyed while frozen loses
    the frozen class but keeps [frozen = true], so the ticks it receives
    afterwards (after a new [init], say) still change no class and fire no
    callback until [unfreeze] is called. *)
Theorem destroy_keeps_frozen
    (f : Features) (srcs : list ScrollSource) (h : widget) :
  (cls_frozen (classes h) ∉ elem (fst (destroy f (freeze h)))) /\
  frozen (fst (destroy f (freeze h))) = true /\
  elem (updates srcs (fst (destroy f (freeze h))))
    = elem (fst (destroy f (freeze h))) /\
  calls (updates srcs (fst (destroy f (freeze h))))
    = calls (fst (destroy f (freeze h))).
Proof.
  destruct (destroy_fields f (freeze h)) as (Hel & Hf).
  split.
  - rewrite Hel. intros [_ Hn]. apply Hn. simpl. by left.
  - split; [exact Hf |]. by apply frozen_ticks_fields.
Qed.

(** X20.  [destroy] can be called twice: the second call leaves the widget as
    the first one left it. *)
Theorem destroy_idempotent (f : Features) (h : widget) :
  fst (destroy f (fst (destroy f h))) = fst (destroy f h).
Proof.
  apply widget_eq; [reflexivity | | reflexivity].
  apply set_eq. intros x.
  destruct (destroy_fields f (fst (destroy f h))) as [H2 _].
  destruct (destroy_fields f h) as [H1 _].
  rewrite H2, H1.
  change (classes (fst (destroy f h))) with (classes h). tauto.
Qed.

(** X21.  [attachEvent] attaches once.  A second call, whatever the scroll
    position then, changes nothing and calls nothing: [lastKnownScrollY] is
    not sampled again and no second listener is registered. *)
Theorem attachEvent_once (f : Features) (src1 src2 : ScrollSource) (h : widget) :
  attachEvent f src2 (fst (attachEvent f src1 h))
  = (fst (attachEvent f src1 h), []).
Proof.
  unfold attachEvent. destruct (initialised h) eqn:Hi; simpl.
  - by rewrite Hi.
  - reflexivity.
Qed.

(** X22.  After [destroy] the widget can be attached again, and [destroy]
    removes the scroll listener with the same third argument [attachEvent]
    registers it with (capture false), whether passive listeners are
    supported or not. *)
Theorem attachEvent_after_destroy
    (f : Features) (src : ScrollSource) (h : widget) :
  exists a : listenerArg,
    capture_of a = false /\
    snd (destroy f h) = [RemoveEventListener a] /\
    snd (attachEvent f src (fst (destroy f h)))
      = [AddEventListener a; HandleEvent] /\
    lastKnownScrollY (fst (attachEvent f src (fst (destroy f h))))
      = scrollY src /\
    initialised (fst (attachEvent f src (fst (destroy f h)))) = true.
Proof.
  exists (optionsOrCapture f false true).
  split; [unfold optionsOrCapture; by destruct (feat_passiveSupported f) |].
  repeat split.
Qed.

(** X23.  The tick that follows [attachEvent] at the position it sampled never
    calls [unpin()]: it calls [pin()] at or above the offset line and
    nothing below it. *)
Theorem first_tick_after_attach (f : Features) (src : ScrollSource) (h : widget) :
  initialised h = false ->
  pinAxisCall src (fst (attachEvent f src h)) =
    if isOutOfBounds src (scrollY src) || frozen h then CallsNeither
    else if (scrollY src <=? offset h)%num then CallsPin
    else CallsNeither.
Proof.
  intros Hi. unfold attachEvent. rewrite Hi. simpl.
  by rewrite pinAxisCall_same_position.
Qed.

Lemma first_tick_after_attach_witness :
  pinAxisCall (reading 300 500 2000)
    (fst (attachEvent all_features (reading 300 500 2000) fresh_widget)) =
    if isOutOfBounds (reading 300 500 2000) (Finite 300) || frozen fresh_widget
    then CallsNeither
    else if (Finite 300 <=? offset fresh_widget)%num then CallsPin
    else CallsNeither.
Proof.
  apply (first_tick_after_attach all_features (reading 300 500 2000)).
  reflexivity.
Defined.




